(** * css-builder: constructors, builder and serializer of CSS math expressions

    A shallow embedding of [src/ast.ts], [src/create.ts], [src/builder.ts]
    and [src/serialize.ts].

    - A node of [ast.ts] is a value of the inductive type [Ast.CalcSum]:
      the union type [CalcSum], which contains [CalcProduct], which
      contains [CalcValue], with one constructor per [kind].
    - The object a node is at run time ([kind] and [value], the latter a
      string or an array of children, [null]s and nested arrays) is a value
      of [AnyAstNodeValue]; [Ast.to_any] gives the object literal that
      [create.ts] builds for each kind.
    - A JavaScript number is taken as the code observes it ([number]): the
      string its [toString()] gives and whether it is falsy.  [int] gives
      the integers up to [2^53], [NaN] the number [NaN].
    - A function that throws returns [Throw message]. *)

From Equations Require Import Equations.
From Stdlib Require Import String Ascii List ZArith Lia Bool DecimalString.
From Stdlib Require DecimalPos.
Import ListNotations.
Local Open Scope string_scope.
Local Open Scope list_scope.
Set Warnings "-register-all".

(* ===================================================================== *)
(** ** serialize.ts *)
(* ===================================================================== *)

(** [AnyAstNodeValue = AnyAstNode | null | readonly AnyAstNodeValue[]], where
    an [AnyAstNode] has a [kind] and a [value] that is a string ([Leaf]) or
    an array of [AnyAstNodeValue] ([Node]). *)
Inductive AnyAstNodeValue : Type :=
| Null
| Arr (items : list AnyAstNodeValue)
| Leaf (kind : string) (value : string)
| Node (kind : string) (value : list AnyAstNodeValue).

(** Number of objects, arrays and nulls of a value: what the work stack of
    [serialize] still has to pop. *)
Fixpoint weight (v : AnyAstNodeValue) : nat :=
  match v with
  | Null => 1
  | Arr items => S (list_sum (map weight items))
  | Leaf _ _ => 1
  | Node _ value => S (list_sum (map weight value))
  end.

Definition stack_weight (stack : list AnyAstNodeValue) : nat :=
  list_sum (map weight stack).

(** [for (let i = a.length - 1; i >= 0; i -= 1) stack.push(a[i])]: the array
    is walked from its last element to its first and each element is pushed.
    The top of the stack is the head of the list. *)
Definition push_backwards (a stack : list AnyAstNodeValue) : list AnyAstNodeValue :=
  fold_left (fun st x => x :: st) (rev a) stack.

(** The [while (stack.length > 0)] loop of [serialize], one clause per
    branch of its body: [stack.pop()], then [continue] on [null], push the
    elements of an array, append a string value to [output], push the
    children of a node. *)
Equations? serialize_loop (output : string) (stack : list AnyAstNodeValue) : string
  by wf (stack_weight stack) lt :=
  serialize_loop output [] := output;
  serialize_loop output (Null :: stack) := serialize_loop output stack;
  serialize_loop output (Arr current :: stack) :=
    serialize_loop output (push_backwards current stack);
  serialize_loop output (Leaf _ value :: stack) :=
    serialize_loop (output ++ value)%string stack;
  serialize_loop output (Node _ value :: stack) :=
    serialize_loop output (push_backwards value stack).
Proof.
  all: assert (pushed : forall a st,
         stack_weight (push_backwards a st) = list_sum (map weight a) + stack_weight st)
    by (unfold push_backwards, stack_weight; intros a; induction a as [|x a IH] using rev_ind;
        intros st; [reflexivity | rewrite rev_app_distr; simpl; rewrite IH, map_app, list_sum_app;
                                  simpl; lia]).
  all: try rewrite pushed; unfold stack_weight; simpl; lia.
Qed.

Definition serialize (node : AnyAstNodeValue) : string :=
  serialize_loop "" [node].

(** The reading of the specification: the leaf string tokens of a tree from
    left to right, and their concatenation by plain recursion. *)
Fixpoint leaf_tokens (v : AnyAstNodeValue) : list string :=
  match v with
  | Null => []
  | Arr items => flat_map leaf_tokens items
  | Leaf _ value => [value]
  | Node _ value => flat_map leaf_tokens value
  end.

Fixpoint serialize_rec (v : AnyAstNodeValue) : string :=
  match v with
  | Null => ""
  | Arr items => String.concat "" (map serialize_rec items)
  | Leaf _ value => value
  | Node _ value => String.concat "" (map serialize_rec value)
  end.

(* ===================================================================== *)
(** ** ast.ts *)
(* ===================================================================== *)

Module Ast.

(** [RoundStrategy = "nearest" | "up" | "down" | "to-zero"] *)
Inductive RoundStrategy : Type := nearest | up | down | to_zero.

Definition RoundStrategy_text (s : RoundStrategy) : string :=
  match s with
  | nearest => "nearest"
  | up => "up"
  | down => "down"
  | to_zero => "to-zero"
  end.

(** The nodes of [ast.ts], one constructor per [kind].  The operator tokens
    of a ["calc-sum"] (the strings [" + "] and [" - "]) and of a
    ["calc-product"] (["*"] and ["/"]) are kept as the strings the object
    holds.  [Keyword] also carries the [none] of [clamp]. *)
Inductive CalcSum : Type :=
| Number (value : string)
| Dimension (number unit : string)
| Percentage (number : string)
| Keyword (value : string)
| Raw (value : string)
| Group (sum : CalcSum)
| Min (first : CalcSum) (rest : list CalcSum)
| Max (first : CalcSum) (rest : list CalcSum)
| Clamp (min preferred max : CalcSum)
| Calc (sum : CalcSum)
| Exp (sum : CalcSum)
| Pow (base exponent : CalcSum)
| Round (strategy : option RoundStrategy) (value : CalcSum) (interval : option CalcSum)
| Var (name : string) (fallback : option CalcSum)
| Product (first : CalcSum) (rest : list (string * CalcSum))
| Sum (first : CalcSum) (rest : list (string * CalcSum)).

Definition token (value : string) : AnyAstNodeValue := Leaf "token" value.
Definition function (value : string) : AnyAstNodeValue := Leaf "function" value.

(** The object of a node: the literals of [create.ts]. *)
Fixpoint to_any (n : CalcSum) : AnyAstNodeValue :=
  match n with
  | Number value => Leaf "number" value
  | Dimension number unit =>
      Node "dimension" [Leaf "dimension-number" number; Leaf "dimension-unit" unit]
  | Percentage number =>
      Node "percentage" [Leaf "percentage-number" number; token "%"]
  | Keyword value => Leaf "keyword" value
  | Raw value => Leaf "raw" value
  | Group sum => Node "group" [token "("; to_any sum; token ")"]
  | Min first rest =>
      Node "min"
        [function "min"; token "(";
         Arr (to_any first :: map (fun item => Arr [token ","; to_any item]) rest);
         token ")"]
  | Max first rest =>
      Node "max"
        [function "max"; token "(";
         Arr (to_any first :: map (fun item => Arr [token ","; to_any item]) rest);
         token ")"]
  | Clamp min preferred max =>
      Node "clamp"
        [function "clamp"; token "("; to_any min; token ",";
         to_any preferred; token ","; to_any max; token ")"]
  | Calc sum => Node "calc" [function "calc"; token "("; to_any sum; token ")"]
  | Exp sum => Node "exp" [function "exp"; token "("; to_any sum; token ")"]
  | Pow base exponent =>
      Node "pow"
        [function "pow"; token "("; to_any base; token ","; to_any exponent; token ")"]
  | Round strategy value interval =>
      Node "round"
        [function "round"; token "(";
         match strategy with
         | Some s => Arr [Leaf "rounding-strategy" (RoundStrategy_text s); token ","]
         | None => Null
         end;
         to_any value;
         match interval with
         | Some i => Arr [token ","; to_any i]
         | None => Null
         end;
         token ")"]
  | Var name fallback =>
      Node "var"
        [function "var"; token "("; Leaf "custom-property" name;
         match fallback with
         | Some f => Arr [token ","; to_any f]
         | None => Null
         end;
         token ")"]
  | Product first rest =>
      Node "calc-product"
        [to_any first;
         Arr (map (fun ov => Arr [token (fst ov); to_any (snd ov)]) rest)]
  | Sum first rest =>
      Node "calc-sum"
        [to_any first;
         Arr (map (fun ov => Arr [token (fst ov); to_any (snd ov)]) rest)]
  end.

End Ast.

(* ===================================================================== *)
(** ** Scalars and operators *)
(* ===================================================================== *)

(** A JavaScript number.  The code uses a number in two ways only: it
    takes [value.toString()] and it tests [!item].  A number is therefore
    given by the string that [Number.prototype.toString] returns for it
    (["12.5"], ["1e+21"], ["NaN"], ["Infinity"], ...) and by whether it is
    falsy, which [0], [-0] and [NaN] are and no other number is. *)
Record number : Type :=
  { number_toString : string;
    number_is_falsy : bool }.

(** The number that is the integer [z], for [z] of absolute value at most
    [2^53]: a JavaScript number holds such an integer exactly, [toString]
    prints it in plain decimal, and [0] is the one that is falsy.  The
    examples use no other integer. *)
Definition int (z : Z) : number :=
  {| number_toString := NilZero.string_of_int (Z.to_int z);
     number_is_falsy := Z.eqb z 0 |}.

Coercion int : Z >-> number.

(** [NaN] *)
Definition NaN : number :=
  {| number_toString := "NaN"; number_is_falsy := true |}.

(** A number other than [0], [-0] and [NaN], given by the string that
    [toString] prints for it: [printed "1.5"] is the number [1.5]. *)
Definition printed (text : string) : number :=
  {| number_toString := text; number_is_falsy := false |}.

(** [number | string]. *)
Inductive Scalar : Type :=
| Num (n : number)
| Str (s : string).
Arguments Num n%_Z.

(** [value.toString()] *)
Definition toString (value : Scalar) : string :=
  match value with
  | Num n => number_toString n
  | Str s => s
  end.

(** The operators ["+" | "-"] of a sum. *)
Inductive SumOp : Type := plus | minus.

Definition SumOp_text (op : SumOp) : string :=
  match op with
  | plus => "+"
  | minus => "-"
  end.

Definition SumOp_eqb (a b : SumOp) : bool :=
  match a, b with
  | plus, plus | minus, minus => true
  | _, _ => false
  end.

(** A function that returns or throws [new Error(message)]. *)
Inductive result (A : Type) : Type :=
| Ok (a : A)
| Throw (message : string).
Arguments Ok {A} a.
Arguments Throw {A} message.

Definition bind {A B : Type} (r : result A) (f : A -> result B) : result B :=
  match r with
  | Ok a => f a
  | Throw message => Throw message
  end.

Definition result_map {A B : Type} (f : A -> B) (r : result A) : result B :=
  bind r (fun a => Ok (f a)).

(* ===================================================================== *)
(** ** create.ts *)
(* ===================================================================== *)

Module create.
Import Ast.

Definition min (first : CalcSum) (rest : list CalcSum) : CalcSum := Min first rest.
Definition max (first : CalcSum) (rest : list CalcSum) : CalcSum := Max first rest.
Definition clamp (min preferred max : CalcSum) : CalcSum := Clamp min preferred max.
Definition calc (sum : CalcSum) : CalcSum := Calc sum.
Definition exp (sum : CalcSum) : CalcSum := Exp sum.
Definition pow (base exponent : CalcSum) : CalcSum := Pow base exponent.
Definition round (strategy : option RoundStrategy) (value : CalcSum)
    (interval : option CalcSum) : CalcSum :=
  Round strategy value interval.

(** [clacSum(first, ...products)]: the bare [first] when there is no
    product, else a ["calc-sum"] whose tokens are [` ${operator} `]. *)
Definition clacSum (first : CalcSum) (products : list (SumOp * CalcSum)) : CalcSum :=
  if Nat.eqb (List.length products) 0 then first
  else Sum first
         (map (fun op => ((" " ++ SumOp_text (fst op) ++ " ")%string, snd op)) products).

(** [calcProduct(first, ...values)]: the operators are the strings ["*"]
    and ["/"], used as the token as they are. *)
Definition calcProduct (first : CalcSum) (values : list (string * CalcSum)) : CalcSum :=
  if Nat.eqb (List.length values) 0 then first
  else Product first (map (fun ov => (fst ov, snd ov)) values).

Module calcValue.
Definition number (value : Scalar) : CalcSum := Number (toString value).
Definition dimension (value : Scalar) (unit : string) : CalcSum :=
  Dimension (toString value) unit.
Definition percentage (value : Scalar) : CalcSum := Percentage (toString value).
Definition keyword (value : string) : CalcSum := Keyword value.
Definition group (value : CalcSum) : CalcSum := Group value.
Definition raw (value : string) : CalcSum := Raw value.
Definition var (name : string) (fallback : option CalcSum) : CalcSum := Var name fallback.
End calcValue.

End create.

(* ===================================================================== *)
(** ** Regular expressions, as [String.prototype.match] runs them *)
(* ===================================================================== *)

Module RegExp.

(** The part of the pattern language that [builder.ts] uses.  Alternation
    is ordered and repetition is greedy, with backtracking. *)
Inductive regex : Type :=
| Chr (class : ascii -> bool)
| Eps
| Cat (r1 r2 : regex)
| Or (r1 r2 : regex)
| Many (r : regex).

(** [r?] and [r+] *)
Definition Maybe (r : regex) : regex := Or r Eps.
Definition Some1 (r : regex) : regex := Cat r (Many r).

(** [[chars]] *)
Definition one_of (chars : string) (c : ascii) : bool :=
  existsb (Ascii.eqb c) (list_ascii_of_string chars).

(** [\d] *)
Definition digit : ascii -> bool := one_of "0123456789".

(** A continuation takes what is left of the string once a part of the
    pattern has matched, and answers with what is left at the end of the
    whole match, or [None] when the rest of the pattern fails. *)
Definition continuation : Type := string -> option string.

(** [r*], given the matcher [step] of [r]: at most [n] iterations, each
    tried before the continuation (greedy).  An iteration that consumes
    nothing is refused. *)
Fixpoint many (step : string -> continuation -> option string) (k : continuation)
    (n : nat) (s : string) {struct n} : option string :=
  match n with
  | O => k s
  | S n' =>
      match step s (fun s' =>
               if Nat.ltb (String.length s') (String.length s)
               then many step k n' s' else None) with
      | Some e => Some e
      | None => k s
      end
  end.

(** [exec r s k] matches [r] at the start of [s] and hands what is left of
    [s] to the continuation [k]; when [k] fails the matcher backtracks to
    the next choice: the second branch of an alternation, one iteration
    fewer of a repetition. *)
Fixpoint exec (r : regex) (s : string) (k : continuation) {struct r} : option string :=
  match r with
  | Chr class =>
      match s with
      | String c s' => if class c then k s' else None
      | EmptyString => None
      end
  | Eps => k s
  | Cat r1 r2 => exec r1 s (fun s' => exec r2 s' k)
  | Or r1 r2 =>
      match exec r1 s k with
      | Some e => Some e
      | None => exec r2 s k
      end
  | Many r1 => many (exec r1) k (String.length s) s
  end.

(** The first [n] characters of [s], and [s.slice(n)]. *)
Fixpoint take (n : nat) (s : string) : string :=
  match n, s with
  | S n', String c s' => String c (take n' s')
  | _, _ => ""
  end.

Fixpoint slice (n : nat) (s : string) : string :=
  match n, s with
  | S n', String _ s' => slice n' s'
  | _, _ => s
  end.

(** [s.match(/^r/)]: [match[0]], the text matched at position 0, or [None]
    for a [null] result. *)
Definition match_start (r : regex) (s : string) : option string :=
  match exec r s Some with
  | Some rest => Some (take (String.length s - String.length rest) s)
  | None => None
  end.

End RegExp.

(* ===================================================================== *)
(** ** builder.ts *)
(* ===================================================================== *)

(** [AnyExpression = Ast.CalcSum | Ast.CalcProduct | number | string] and
    [AnyMaybeExpression = AnyExpression | null] ([None] is [null], and
    [undefined] where an argument is left out). *)
Inductive AnyExpression : Type :=
| EScalar (v : Scalar)
| ENode (n : Ast.CalcSum).

Definition AnyMaybeExpression : Type := option AnyExpression.

Module builder.
Import Ast RegExp.

(** [!item]: [null] (and [undefined]), a falsy number ([0], [-0], [NaN])
    and the string [""] are falsy, an object is not. *)
Definition falsy (item : AnyMaybeExpression) : bool :=
  match item with
  | None => true
  | Some (EScalar (Num n)) => number_is_falsy n
  | Some (EScalar (Str s)) => String.eqb s ""
  | Some (ENode _) => false
  end.

(** [/^[+-]?(?:\d+|\d*\.\d+)(?:[eE][+-]?\d+)?/] *)
Definition number_pattern : regex :=
  Cat (Maybe (Chr (one_of "+-")))
   (Cat (Or (Some1 (Chr digit))
            (Cat (Many (Chr digit)) (Cat (Chr (one_of ".")) (Some1 (Chr digit)))))
        (Maybe (Cat (Chr (one_of "eE"))
                 (Cat (Maybe (Chr (one_of "+-"))) (Some1 (Chr digit)))))).

Definition value (value : Scalar) : CalcSum :=
  match value with
  | Num _ => create.calcValue.number value
  | Str s =>
      match match_start number_pattern s with
      | None => create.calcValue.raw s
      | Some numberPart =>
          let unit := slice (String.length numberPart) s in
          if String.eqb unit "" then create.calcValue.number (Str numberPart)
          else if String.eqb unit "%" then create.calcValue.percentage (Str numberPart)
          else create.calcValue.dimension (Str numberPart) unit
      end
  end.

(** *** addOrSubstract *)

(** [handleItem] of [addOrSubstract] on an object: [resolvedItems] is the
    array the closure pushes to, threaded through. *)
Fixpoint addOrSubstract_handleNode (op : SumOp) (item : CalcSum)
    (resolvedItems : list (SumOp * CalcSum)) : list (SumOp * CalcSum) :=
  let outerOp := op in
  match item with
  | Sum first rest =>
      let isFirst := Nat.eqb (List.length resolvedItems) 0 in
      fold_left
        (fun items opval =>
           let nextOp := if String.eqb (fst opval) " + " then plus else minus in
           let mergedOp :=
             if SumOp_eqb outerOp minus && negb isFirst
             then (if SumOp_eqb nextOp plus then minus else plus)
             else nextOp in
           items ++ [(mergedOp, snd opval)])
        rest
        (resolvedItems ++ [(outerOp, first)])
  | Calc sum => addOrSubstract_handleNode op sum resolvedItems
  | _ => resolvedItems ++ [(op, item)]
  end.

Definition addOrSubstract_handleItem (op : SumOp) (item : AnyMaybeExpression)
    (resolvedItems : list (SumOp * CalcSum)) : list (SumOp * CalcSum) :=
  if falsy item then resolvedItems
  else
    match item with
    | None => resolvedItems
    | Some (EScalar v) => resolvedItems ++ [(op, value v)]
    | Some (ENode n) => addOrSubstract_handleNode op n resolvedItems
    end.

(** The [for (const item of items) handleItem(item)] loop. *)
Definition addOrSubstract_resolve (op : SumOp) (items : list AnyMaybeExpression)
  : list (SumOp * CalcSum) :=
  fold_left (fun resolvedItems item => addOrSubstract_handleItem op item resolvedItems)
    items [].

Definition addOrSubstract (op : SumOp) (items : list AnyMaybeExpression) : result CalcSum :=
  match addOrSubstract_resolve op items with
  | [] => Throw "Expected at least one item."
  | first :: resolvedItems => Ok (create.calc (create.clacSum (snd first) resolvedItems))
  end.

Definition add (items : list AnyMaybeExpression) : result CalcSum :=
  addOrSubstract plus items.

Definition substract (items : list AnyMaybeExpression) : result CalcSum :=
  addOrSubstract minus items.

(** *** multiplyOrDivide *)

Fixpoint multiplyOrDivide_handleNode (op : string) (item : CalcSum)
    (resolvedItems : list (string * CalcSum)) : list (string * CalcSum) :=
  match item with
  | Product first rest =>
      fold_left (fun items opval => items ++ [(fst opval, snd opval)])
        rest
        (resolvedItems ++ [(op, first)])
  | Sum _ _ => resolvedItems ++ [(op, create.calcValue.group item)]
  | Calc sum => multiplyOrDivide_handleNode op sum resolvedItems
  | _ => resolvedItems ++ [(op, item)]
  end.

Definition multiplyOrDivide_handleItem (op : string) (item : AnyMaybeExpression)
    (resolvedItems : list (string * CalcSum)) : list (string * CalcSum) :=
  if falsy item then resolvedItems
  else
    match item with
    | None => resolvedItems
    | Some (EScalar v) => resolvedItems ++ [(op, value v)]
    | Some (ENode n) => multiplyOrDivide_handleNode op n resolvedItems
    end.

Definition multiplyOrDivide_resolve (op : string) (items : list AnyMaybeExpression)
  : list (string * CalcSum) :=
  fold_left (fun resolvedItems item => multiplyOrDivide_handleItem op item resolvedItems)
    items [].

Definition multiplyOrDivide (op : string) (items : list AnyMaybeExpression)
  : result CalcSum :=
  match multiplyOrDivide_resolve op items with
  | [] => Throw "Expected at least one item."
  | first :: resolvedItems => Ok (create.calc (create.calcProduct (snd first) resolvedItems))
  end.

Definition multiply (items : list AnyMaybeExpression) : result CalcSum :=
  multiplyOrDivide "*" items.

Definition divide (items : list AnyMaybeExpression) : result CalcSum :=
  multiplyOrDivide "/" items.

(** *** min, max *)

Definition resolveCalcSums_handleItem (item : AnyMaybeExpression)
    (resolvedItems : list CalcSum) : list CalcSum :=
  if falsy item then resolvedItems
  else
    match item with
    | None => resolvedItems
    | Some (EScalar v) => resolvedItems ++ [value v]
    | Some (ENode (Calc sum)) => resolvedItems ++ [sum]
    | Some (ENode n) => resolvedItems ++ [n]
    end.

Definition resolveCalcSums (items : list AnyMaybeExpression) : list CalcSum :=
  fold_left (fun resolvedItems item => resolveCalcSums_handleItem item resolvedItems)
    items [].

Definition min (items : list AnyMaybeExpression) : result CalcSum :=
  match resolveCalcSums items with
  | [] => Throw "Expected at least one item."
  | first :: resolvedItems => Ok (create.min first resolvedItems)
  end.

Definition max (items : list AnyMaybeExpression) : result CalcSum :=
  match resolveCalcSums items with
  | [] => Throw "Expected at least one item."
  | first :: resolvedItems => Ok (create.max first resolvedItems)
  end.

(** *** clamp, exp, pow, round *)

Definition anyExprToCalcSum (item : AnyExpression) : CalcSum :=
  match item with
  | EScalar v => value v
  | ENode (Calc sum) => sum
  | ENode n => n
  end.

(** [x === "none"] *)
Definition is_none (x : AnyExpression) : bool :=
  match x with
  | EScalar (Str s) => String.eqb s "none"
  | _ => false
  end.

Definition clamp (min preferred max : AnyExpression) : CalcSum :=
  create.clamp
    (if is_none min then Keyword "none" else anyExprToCalcSum min)
    (anyExprToCalcSum preferred)
    (if is_none max then Keyword "none" else anyExprToCalcSum max).

Definition exp (item : AnyExpression) : CalcSum :=
  match item with
  | EScalar v => create.exp (value v)
  | ENode _ => create.exp (anyExprToCalcSum item)
  end.

Definition pow (base exponent : AnyExpression) : CalcSum :=
  create.pow (anyExprToCalcSum base) (anyExprToCalcSum exponent).

(** [round(strategy, value, interval?)]: [value == null] throws; a falsy
    [interval] is passed on as [undefined]. *)
Definition round (strategy : option RoundStrategy) (value interval : AnyMaybeExpression)
  : result CalcSum :=
  match value with
  | None => Throw "Expected at least one item."
  | Some v =>
      Ok (create.round strategy (anyExprToCalcSum v)
            (if falsy interval then None
             else match interval with
                  | Some i => Some (anyExprToCalcSum i)
                  | None => None
                  end))
  end.

Definition roundNearest (value interval : AnyMaybeExpression) : result CalcSum :=
  round (Some nearest) value interval.
Definition roundUp (value interval : AnyMaybeExpression) : result CalcSum :=
  round (Some up) value interval.
Definition roundDown (value interval : AnyMaybeExpression) : result CalcSum :=
  round (Some down) value interval.
Definition roundToZero (value interval : AnyMaybeExpression) : result CalcSum :=
  round (Some to_zero) value interval.

End builder.

(** Serialization of a node and of the result of a builder call. *)
Definition css (n : Ast.CalcSum) : string := serialize (Ast.to_any n).

Definition css_result (r : result Ast.CalcSum) : result string := result_map css r.

(** Shorthands for operands. *)
Definition num (n : Z) : AnyMaybeExpression := Some (EScalar (Num n)).
Definition str (s : string) : AnyMaybeExpression := Some (EScalar (Str s)).
Definition node (n : Ast.CalcSum) : AnyMaybeExpression := Some (ENode n).
Definition null : AnyMaybeExpression := None.

(* ===================================================================== *)
(** ** Vocabulary of the properties *)
(* ===================================================================== *)

(** The grammar a pattern stands for: [lang r s] when the whole of [s] is a
    string of the language of [r]. *)
Inductive lang : RegExp.regex -> string -> Prop :=
| lang_chr class c : class c = true -> lang (RegExp.Chr class) (String c "")
| lang_eps : lang RegExp.Eps ""
| lang_cat r1 r2 s1 s2 :
    lang r1 s1 -> lang r2 s2 -> lang (RegExp.Cat r1 r2) (s1 ++ s2)
| lang_or_l r1 r2 s : lang r1 s -> lang (RegExp.Or r1 r2) s
| lang_or_r r1 r2 s : lang r2 s -> lang (RegExp.Or r1 r2) s
| lang_many_nil r : lang (RegExp.Many r) ""
| lang_many_cons r s1 s2 :
    lang r s1 -> lang (RegExp.Many r) s2 -> lang (RegExp.Many r) (s1 ++ s2).

(** The other sign. *)
Definition SumOp_flip (op : SumOp) : SumOp :=
  match op with
  | plus => minus
  | minus => plus
  end.

(** The sign a token of a ["calc-sum"] stands for, as [handleItem] reads
    it. *)
Definition SumOp_of_token (token : string) : SumOp :=
  if String.eqb token " + " then plus else minus.

(** [outerOp === "-" && !isFirst], with [isFirst] read off the items
    resolved so far. *)
Definition flips (outer : SumOp) (resolvedItems : list (SumOp * Ast.CalcSum)) : bool :=
  SumOp_eqb outer minus && negb (Nat.eqb (List.length resolvedItems) 0).

(** The error of an entry point that is left with no operand. *)
Definition empty_input : string := "Expected at least one item.".

(** An entry point raises the empty-input error exactly on the lists whose
    operands are all dropped, and returns a node on every other list. *)
Definition raises_iff_all_dropped (f : list AnyMaybeExpression -> result Ast.CalcSum)
  : Prop :=
  forall items,
    (f items = Throw empty_input <-> forallb builder.falsy items = true)
    /\ (forallb builder.falsy items = false -> exists n, f items = Ok n).

(** What is left of a list of operands once the [null]s are dropped. *)
Definition without_nulls (items : list AnyMaybeExpression) : list AnyMaybeExpression :=
  filter (fun item => match item with None => false | Some _ => true end) items.

(** The text of an operand on its own. *)
Definition operand_css (c : AnyExpression) : string :=
  match c with
  | EScalar v => toString v
  | ENode n => css n
  end.

(** An operand that [multiplyOrDivide] takes as it stands: a scalar that
    is kept, or a node that is neither unwrapped ([calc]) nor wrapped in a
    group (["calc-sum"]). *)
Definition taken_as_is (c : AnyExpression) : bool :=
  match c with
  | EScalar _ => negb (builder.falsy (Some c))
  | ENode (Ast.Sum _ _) | ENode (Ast.Calc _) => false
  | ENode _ => true
  end.

(** A node that [addOrSubstract] appends as one term: neither a
    ["calc-sum"] nor a [calc]. *)
Definition one_term (n : Ast.CalcSum) : bool :=
  match n with
  | Ast.Sum _ _ | Ast.Calc _ => false
  | _ => true
  end.

(** The invariant of chains at the place where [addOrSubstract] looks: under
    its [calc] wrappers, an operand that is a ["calc-sum"] has at least one
    operator pair. *)
Fixpoint sum_has_pairs (n : Ast.CalcSum) : bool :=
  match n with
  | Ast.Calc sum => sum_has_pairs sum
  | Ast.Sum _ rest => negb (Nat.eqb (List.length rest) 0)
  | _ => true
  end.

(** The same, of an operand of a builder call. *)
Definition operand_has_pairs (item : AnyMaybeExpression) : bool :=
  match item with
  | Some (ENode n) => sum_has_pairs n
  | _ => true
  end.

(** The terms of an operand with the invariant start with a [+] term, and
    a lone term is a node that is appended as it is. *)
Definition well_shaped (terms : list (SumOp * Ast.CalcSum)) : Prop :=
  terms = []
  \/ exists f rest, terms = (plus, f) :: rest /\ (rest = [] -> one_term f = true).

(** An operand that [addOrSubstract] appends as one term: a scalar that is
    kept, or a node that is neither a ["calc-sum"] nor a [calc]. *)
Definition taken_as_term (c : AnyExpression) : bool :=
  match c with
  | EScalar _ => negb (builder.falsy (Some c))
  | ENode n => one_term n
  end.

(** A node that [multiplyOrDivide] appends as one factor, unchanged:
    neither a chain nor a [calc]. *)
Definition one_factor (n : Ast.CalcSum) : bool :=
  match n with
  | Ast.Product _ _ | Ast.Sum _ _ | Ast.Calc _ => false
  | _ => true
  end.

(** The invariant of chains at the place where [multiplyOrDivide] looks:
    under its [calc] wrappers, an operand that is a ["calc-product"] has at
    least one operator pair. *)
Fixpoint product_has_pairs (n : Ast.CalcSum) : bool :=
  match n with
  | Ast.Calc sum => product_has_pairs sum
  | Ast.Product _ rest => negb (Nat.eqb (List.length rest) 0)
  | _ => true
  end.

(** The same, of an operand of a builder call. *)
Definition factor_has_pairs (item : AnyMaybeExpression) : bool :=
  match item with
  | Some (ENode n) => product_has_pairs n
  | _ => true
  end.

(** The text of the pairs of a chain, each operator followed by its
    operand. *)
Definition chain_css (pairs : list (string * Ast.CalcSum)) : string :=
  String.concat "" (map (fun ov => (fst ov ++ css (snd ov))%string) pairs).

(** The operands of a list that are kept, in order. *)
Definition kept_operands (items : list AnyMaybeExpression) : list AnyExpression :=
  flat_map
    (fun item =>
       match item with
       | Some c => if builder.falsy item then [] else [c]
       | None => []
       end)
    items.

(** The text of an argument of a function: that of the operand, a [calc]
    node without its wrapper. *)
Definition argument_css (c : AnyExpression) : string :=
  match c with
  | EScalar v => toString v
  | ENode (Ast.Calc sum) => css sum
  | ENode n => css n
  end.

(** The sign as a number. *)
Definition SumOp_sign (op : SumOp) : Z :=
  match op with
  | plus => 1%Z
  | minus => (-1)%Z
  end.

(** The number a sum stands for, given the numbers [rho] of the nodes that
    are not sums: a ["calc-sum"] is its first term plus or minus each
    further term, by the sign of its token, and a [calc] is its inner
    sum. *)
Fixpoint denote (rho : Ast.CalcSum -> Z) (n : Ast.CalcSum) : Z :=
  match n with
  | Ast.Sum first rest =>
      (denote rho first
       + fold_right
           (fun ov total =>
              SumOp_sign (SumOp_of_token (fst ov)) * denote rho (snd ov) + total)
           0 rest)%Z
  | Ast.Calc sum => denote rho sum
  | _ => rho n
  end.

(** The number an operand stands for. *)
Definition operand_value (rho : Ast.CalcSum -> Z) (c : AnyExpression) : Z :=
  match c with
  | EScalar v => rho (builder.value v)
  | ENode n => denote rho n
  end.

(** The number of a list of resolved terms, each under its sign. *)
Definition terms_value (rho : Ast.CalcSum -> Z) (terms : list (SumOp * Ast.CalcSum)) : Z :=
  fold_right (fun sv total => (SumOp_sign (fst sv) * denote rho (snd sv) + total)%Z)
    0%Z terms.

(** What a product stands for in a structure with a multiplication [mul]
    and an inverse [inv], given the values [rho] of the nodes that are not
    products: a ["calc-product"] is its first value multiplied, from left
    to right, by each further value (token ["*"]) or by its inverse (any
    other token), and a [calc] is its inner expression. *)
Fixpoint denote_product {M : Type} (mul : M -> M -> M) (inv : M -> M)
    (rho : Ast.CalcSum -> M) (n : Ast.CalcSum) : M :=
  match n with
  | Ast.Product first rest =>
      fold_left
        (fun acc ov =>
           mul acc (if String.eqb (fst ov) "*"
                    then denote_product mul inv rho (snd ov)
                    else inv (denote_product mul inv rho (snd ov))))
        rest (denote_product mul inv rho first)
  | Ast.Calc sum => denote_product mul inv rho sum
  | _ => rho n
  end.

(** The value of an operand of [multiply]. *)
Definition factor_value {M : Type} (mul : M -> M -> M) (inv : M -> M)
    (rho : Ast.CalcSum -> M) (c : AnyExpression) : M :=
  match c with
  | EScalar v => rho (builder.value v)
  | ENode n => denote_product mul inv rho n
  end.

(** The value of a chain of resolved pairs that starts from [x]. *)
Definition pairs_value {M : Type} (mul : M -> M -> M) (inv : M -> M)
    (rho : Ast.CalcSum -> M) (x : M) (pairs : list (string * Ast.CalcSum)) : M :=
  fold_left
    (fun acc ov =>
       mul acc (if String.eqb (fst ov) "*"
                then denote_product mul inv rho (snd ov)
                else inv (denote_product mul inv rho (snd ov))))
    pairs x.

(** A string of decimal digits. *)
Definition all_digits (s : string) : bool :=
  forallb RegExp.digit (list_ascii_of_string s).

(** Plain decimal notation of an integer: one digit or more, with or
    without a [-] before them.  [Number.prototype.toString] prints so the
    integers that a number holds exactly; it prints a fractional number
    with a [.], a number from [10^21] on with an exponent, and [NaN] and
    the infinities by name. *)
Definition plain_decimal (s : string) : bool :=
  match s with
  | String c ds =>
      if Ascii.eqb c "-"
      then match ds with
           | String c' ds' => RegExp.digit c' && all_digits ds'
           | EmptyString => false
           end
      else RegExp.digit c && all_digits ds
  | EmptyString => false
  end.

(** The invariant of chains, everywhere in a node: every ["calc-sum"] and
    every ["calc-product"] has at least one operator pair. *)
Fixpoint chains_have_pairs (n : Ast.CalcSum) : bool :=
  match n with
  | Ast.Number _ | Ast.Dimension _ _ | Ast.Percentage _ | Ast.Keyword _ | Ast.Raw _ => true
  | Ast.Group sum | Ast.Calc sum | Ast.Exp sum => chains_have_pairs sum
  | Ast.Min first rest | Ast.Max first rest =>
      chains_have_pairs first && forallb chains_have_pairs rest
  | Ast.Clamp min preferred max =>
      chains_have_pairs min && chains_have_pairs preferred && chains_have_pairs max
  | Ast.Pow base exponent => chains_have_pairs base && chains_have_pairs exponent
  | Ast.Round _ value interval =>
      chains_have_pairs value
      && match interval with
         | Some i => chains_have_pairs i
         | None => true
         end
  | Ast.Var _ fallback =>
      match fallback with
      | Some f => chains_have_pairs f
      | None => true
      end
  | Ast.Product first rest | Ast.Sum first rest =>
      negb (Nat.eqb (List.length rest) 0)
      && chains_have_pairs first
      && forallb (fun ov => chains_have_pairs (snd ov)) rest
  end.

(** The same, of an operand: a scalar has no chain. *)
Definition operand_chains_have_pairs (item : AnyMaybeExpression) : bool :=
  match item with
  | Some (ENode n) => chains_have_pairs n
  | _ => true
  end.

(** The number of [calc] nodes in a node. *)
Fixpoint calcs (n : Ast.CalcSum) : nat :=
  match n with
  | Ast.Number _ | Ast.Dimension _ _ | Ast.Percentage _ | Ast.Keyword _ | Ast.Raw _ => 0
  | Ast.Group sum | Ast.Exp sum => calcs sum
  | Ast.Calc sum => S (calcs sum)
  | Ast.Min first rest | Ast.Max first rest => calcs first + list_sum (map calcs rest)
  | Ast.Clamp min preferred max => calcs min + calcs preferred + calcs max
  | Ast.Pow base exponent => calcs base + calcs exponent
  | Ast.Round _ value interval =>
      calcs value
      + match interval with
        | Some i => calcs i
        | None => 0
        end
  | Ast.Var _ fallback =>
      match fallback with
      | Some f => calcs f
      | None => 0
      end
  | Ast.Product first rest | Ast.Sum first rest =>
      calcs first + list_sum (map (fun ov => calcs (snd ov)) rest)
  end.

(** The node under the [calc] wrappers of a node: what [handleItem] comes
    to when it is given the node. *)
Fixpoint under_calc (n : Ast.CalcSum) : Ast.CalcSum :=
  match n with
  | Ast.Calc sum => under_calc sum
  | _ => n
  end.

(** The [calc] nodes that an operand holds below its own [calc] wrappers. *)
Definition operand_calcs (item : AnyMaybeExpression) : nat :=
  match item with
  | Some (ENode n) => calcs (under_calc n)
  | _ => 0
  end.

(** The [calc] nodes in a list of resolved terms. *)
Definition terms_calcs {Op : Type} (terms : list (Op * Ast.CalcSum)) : nat :=
  list_sum (map (fun sv => calcs (snd sv)) terms).

(* ===================================================================== *)
(** * Properties *)
(* ===================================================================== *)

(** ** Strings *)

Lemma append_nil_r (s : string) : (s ++ "")%string = s.
Proof. induction s as [|c s IH]; simpl; [reflexivity | now rewrite IH]. Qed.

Lemma append_assoc (a b c : string) : ((a ++ b) ++ c = a ++ (b ++ c))%string.
Proof. induction a as [|x a IH]; simpl; [reflexivity | now rewrite IH]. Qed.

Lemma concat_cons (x : string) (xs : list string) :
  String.concat "" (x :: xs) = (x ++ String.concat "" xs)%string.
Proof. destruct xs; simpl; [now rewrite append_nil_r | reflexivity]. Qed.

Lemma concat_app (l1 l2 : list string) :
  String.concat "" (l1 ++ l2) = (String.concat "" l1 ++ String.concat "" l2)%string.
Proof.
  induction l1 as [|x l1 IH]; [reflexivity|].
  rewrite <- app_comm_cons, !concat_cons, IH. now rewrite append_assoc.
Qed.

(** ** The serializer *)

Section nested_induction.
Variable P : AnyAstNodeValue -> Prop.
Hypothesis P_null : P Null.
Hypothesis P_arr : forall items, Forall P items -> P (Arr items).
Hypothesis P_leaf : forall kind value, P (Leaf kind value).
Hypothesis P_node : forall kind value, Forall P value -> P (Node kind value).

Fixpoint AnyAstNodeValue_nested_ind (v : AnyAstNodeValue) : P v :=
  let all := fix all (l : list AnyAstNodeValue) : Forall P l :=
               match l with
               | [] => Forall_nil P
               | x :: xs => Forall_cons x (AnyAstNodeValue_nested_ind x) (all xs)
               end in
  match v with
  | Null => P_null
  | Arr items => P_arr items (all items)
  | Leaf kind value => P_leaf kind value
  | Node kind value => P_node kind value (all value)
  end.
End nested_induction.

Lemma push_backwards_app a stack : push_backwards a stack = a ++ stack.
Proof.
  unfold push_backwards. revert stack.
  induction a as [|x xs IH] using rev_ind; intros stack; [reflexivity|].
  rewrite rev_app_distr. simpl. now rewrite IH, <- app_assoc.
Qed.

(** The loop appends to [output] what the recursive reading gives for each
    entry of the stack, from the top down. *)
Lemma serialize_loop_rec output stack :
  serialize_loop output stack
  = (output ++ String.concat "" (map serialize_rec stack))%string.
Proof.
  funelim (serialize_loop output stack); simp serialize_loop.
  - simpl. now rewrite append_nil_r.
  - rewrite H. simpl map. now rewrite concat_cons.
  - rewrite H, push_backwards_app, map_app, concat_app. simpl map.
    now rewrite concat_cons.
  - rewrite H. simpl map. now rewrite concat_cons, append_assoc.
  - rewrite H, push_backwards_app, map_app, concat_app. simpl map.
    now rewrite concat_cons.
Qed.

Lemma serialize_serialize_rec v : serialize v = serialize_rec v.
Proof.
  unfold serialize. rewrite serialize_loop_rec. simpl. reflexivity.
Qed.

Lemma concat_flat_map (f : AnyAstNodeValue -> string) (g : AnyAstNodeValue -> list string)
    (l : list AnyAstNodeValue) :
  Forall (fun v => f v = String.concat "" (g v)) l ->
  String.concat "" (map f l) = String.concat "" (flat_map g l).
Proof.
  induction 1 as [|v l Hv _ IH]; [reflexivity|].
  simpl map. simpl flat_map. now rewrite concat_cons, concat_app, Hv, IH.
Qed.

Lemma serialize_rec_leaf_tokens v : serialize_rec v = String.concat "" (leaf_tokens v).
Proof.
  induction v using AnyAstNodeValue_nested_ind; simpl; try reflexivity;
    now apply concat_flat_map.
Qed.

(** C8. [serialize] returns, for every tree, the concatenation of its leaf
    string tokens from left to right: the loop over the explicit stack
    computes what the plain depth-first recursion [serialize_rec] computes
    ([null] entries give nothing, nothing is put between tokens).  The
    function is total: it is defined for every tree, whatever its depth. *)
Theorem serialize_is_leaf_concatenation (v : AnyAstNodeValue) :
  serialize v = serialize_rec v /\ serialize v = String.concat "" (leaf_tokens v).
Proof.
  split.
  - apply serialize_serialize_rec.
  - rewrite serialize_serialize_rec. apply serialize_rec_leaf_tokens.
Qed.

(** ** Serialization of the nodes of [create.ts] *)

Lemma css_rec (n : Ast.CalcSum) : css n = serialize_rec (Ast.to_any n).
Proof. apply serialize_serialize_rec. Qed.

Lemma css_calc sum : css (create.calc sum) = ("calc(" ++ css sum ++ ")")%string.
Proof. rewrite !css_rec. reflexivity. Qed.

Lemma css_group sum : css (create.calcValue.group sum) = ("(" ++ css sum ++ ")")%string.
Proof. rewrite !css_rec. reflexivity. Qed.

Lemma css_number v : css (create.calcValue.number v) = toString v.
Proof. rewrite css_rec. reflexivity. Qed.

Lemma css_percentage v : css (create.calcValue.percentage v) = (toString v ++ "%")%string.
Proof. rewrite css_rec. reflexivity. Qed.

Lemma css_dimension v unit :
  css (create.calcValue.dimension v unit) = (toString v ++ unit)%string.
Proof. rewrite css_rec. reflexivity. Qed.

Lemma css_raw s : css (create.calcValue.raw s) = s.
Proof. rewrite css_rec. reflexivity. Qed.

(** The pairs [[token, operand]] of a chain, one after the other. *)
Lemma serialize_rec_pairs (rest : list (string * Ast.CalcSum)) :
  String.concat ""
    (map serialize_rec
       (map (fun ov => Arr [Ast.token (fst ov); Ast.to_any (snd ov)]) rest))
  = String.concat "" (map (fun ov => (fst ov ++ css (snd ov))%string) rest).
Proof.
  induction rest as [|[tok val] rest IH]; [reflexivity|].
  simpl map. rewrite !concat_cons, IH, css_rec. reflexivity.
Qed.

Lemma css_Sum first rest :
  css (Ast.Sum first rest)
  = (css first ++ String.concat "" (map (fun ov => (fst ov ++ css (snd ov))%string) rest))%string.
Proof.
  rewrite !css_rec. simpl. rewrite serialize_rec_pairs.
  destruct (map _ rest); simpl; now rewrite ?append_nil_r.
Qed.

Lemma css_Product first rest :
  css (Ast.Product first rest)
  = (css first ++ String.concat "" (map (fun ov => (fst ov ++ css (snd ov))%string) rest))%string.
Proof.
  rewrite !css_rec. simpl. rewrite serialize_rec_pairs.
  destruct (map _ rest); simpl; now rewrite ?append_nil_r.
Qed.

Lemma serialize_rec_commas (rest : list Ast.CalcSum) :
  String.concat ""
    (map serialize_rec (map (fun item => Arr [Ast.token ","; Ast.to_any item]) rest))
  = String.concat "" (map (fun item => ("," ++ css item)%string) rest).
Proof.
  induction rest as [|item rest IH]; [reflexivity|].
  simpl map. rewrite !concat_cons, IH, css_rec. reflexivity.
Qed.

Lemma css_min first rest :
  css (create.min first rest)
  = ("min(" ++ css first
       ++ String.concat "" (map (fun item => ("," ++ css item)%string) rest) ++ ")")%string.
Proof.
  rewrite css_rec. unfold create.min.
  cbn [Ast.to_any serialize_rec map Ast.function Ast.token].
  rewrite !concat_cons. fold (Ast.token ","). rewrite serialize_rec_commas, <- css_rec.
  simpl. now rewrite !append_assoc.
Qed.

Lemma css_max first rest :
  css (create.max first rest)
  = ("max(" ++ css first
       ++ String.concat "" (map (fun item => ("," ++ css item)%string) rest) ++ ")")%string.
Proof.
  rewrite css_rec. unfold create.max.
  cbn [Ast.to_any serialize_rec map Ast.function Ast.token].
  rewrite !concat_cons. fold (Ast.token ","). rewrite serialize_rec_commas, <- css_rec.
  simpl. now rewrite !append_assoc.
Qed.

Lemma css_clamp min preferred max :
  css (create.clamp min preferred max)
  = ("clamp(" ++ css min ++ "," ++ css preferred ++ "," ++ css max ++ ")")%string.
Proof.
  rewrite !css_rec. simpl. now rewrite ?append_assoc.
Qed.

(** ** The constructors of chains *)

Lemma clacSum_nil first : create.clacSum first [] = first.
Proof. reflexivity. Qed.

Lemma calcProduct_nil first : create.calcProduct first [] = first.
Proof. reflexivity. Qed.

Lemma clacSum_cons first p ps :
  create.clacSum first (p :: ps)
  = Ast.Sum first
      (map (fun op => ((" " ++ SumOp_text (fst op) ++ " ")%string, snd op)) (p :: ps)).
Proof. reflexivity. Qed.

Lemma calcProduct_cons first v vs :
  create.calcProduct first (v :: vs) = Ast.Product first (v :: vs).
Proof.
  unfold create.calcProduct. simpl Nat.eqb. cbv iota. f_equal.
  rewrite <- (map_id (v :: vs)) at 2. apply map_ext. now intros [o x].
Qed.

(** C7. [clacSum(first)] and [calcProduct(first)] with no operator pair
    return [first] itself; with at least one pair they build a node whose
    list of pairs is as long as the pairs given, so never empty; and
    [sum(x)] and [product(x)] serialize as [x] does. *)
Theorem single_operand_collapse :
  (forall first, create.clacSum first [] = first)
  /\ (forall first, create.calcProduct first [] = first)
  /\ (forall first p ps, exists rest,
         create.clacSum first (p :: ps) = Ast.Sum first rest
         /\ List.length rest = S (List.length ps))
  /\ (forall first v vs, exists rest,
         create.calcProduct first (v :: vs) = Ast.Product first rest
         /\ List.length rest = S (List.length vs))
  /\ (forall x, css (create.clacSum x []) = css x)
  /\ (forall x, css (create.calcProduct x []) = css x).
Proof.
  repeat split; try reflexivity.
  - intros first p ps. eexists. split; [apply clacSum_cons|].
    now rewrite length_map.
  - intros first v vs. eexists. split; [apply calcProduct_cons|]. reflexivity.
Qed.

(** ** Output format *)

Lemma css_clacSum first products :
  css (create.clacSum first products)
  = (css first
     ++ String.concat ""
          (map (fun op => (" " ++ SumOp_text (fst op) ++ " " ++ css (snd op))%string)
               products))%string.
Proof.
  destruct products as [|p ps].
  - rewrite clacSum_nil. simpl. now rewrite append_nil_r.
  - rewrite clacSum_cons, css_Sum, map_map. f_equal. f_equal.
    apply map_ext. intros [o x]. simpl. now rewrite append_assoc.
Qed.

Lemma css_calcProduct first values :
  css (create.calcProduct first values)
  = (css first
     ++ String.concat "" (map (fun ov => (fst ov ++ css (snd ov))%string) values))%string.
Proof.
  destruct values as [|v vs].
  - rewrite calcProduct_nil. simpl. now rewrite append_nil_r.
  - now rewrite calcProduct_cons, css_Product.
Qed.

(** C9. A sum is its first term followed, for each pair, by the operator
    with one space on each side and the term; a product is its first value
    followed by each operator (["*"], ["/"]) and value with nothing around
    the operator; the arguments of [min], [max] and [clamp] are separated
    by a bare comma; and [clamp] of [calc(5 + 1)], [7] and [calc(10 - 2)]
    serializes to ["clamp(5 + 1,7,10 - 2)"], the [calc] wrappers gone. *)
Theorem output_format :
  (forall first products,
      css (create.clacSum first products)
      = (css first
         ++ String.concat ""
              (map (fun op => (" " ++ SumOp_text (fst op) ++ " " ++ css (snd op))%string)
                   products))%string)
  /\ SumOp_text plus = "+" /\ SumOp_text minus = "-"
  /\ (forall first values,
      css (create.calcProduct first values)
      = (css first
         ++ String.concat "" (map (fun ov => (fst ov ++ css (snd ov))%string) values))%string)
  /\ (forall first rest,
      css (create.min first rest)
      = ("min(" ++ css first
           ++ String.concat "" (map (fun item => ("," ++ css item)%string) rest)
           ++ ")")%string)
  /\ (forall first rest,
      css (create.max first rest)
      = ("max(" ++ css first
           ++ String.concat "" (map (fun item => ("," ++ css item)%string) rest)
           ++ ")")%string)
  /\ (forall min preferred max,
      css (create.clamp min preferred max)
      = ("clamp(" ++ css min ++ "," ++ css preferred ++ "," ++ css max ++ ")")%string)
  /\ css (builder.clamp
            (ENode (create.calc
               (create.clacSum (create.calcValue.number (Num 5))
                  [(plus, create.calcValue.number (Num 1))])))
            (EScalar (Num 7))
            (ENode (create.calc
               (create.clacSum (create.calcValue.number (Num 10))
                  [(minus, create.calcValue.number (Num 2))]))))
     = "clamp(5 + 1,7,10 - 2)".
Proof.
  repeat split.
  - apply css_clacSum.
  - apply css_calcProduct.
  - apply css_min.
  - apply css_max.
  - apply css_clamp.
Qed.

(** ** The matcher and the grammar of a pattern *)

Lemma length_append (a b : string) :
  String.length (a ++ b) = String.length a + String.length b.
Proof. induction a as [|c a IH]; simpl; [reflexivity | now rewrite IH]. Qed.

Lemma take_append (a b : string) : RegExp.take (String.length a) (a ++ b) = a.
Proof. induction a as [|c a IH]; simpl; [now destruct b | now rewrite IH]. Qed.

Section repetition.
Variable step : string -> RegExp.continuation -> option string.
Variable r : RegExp.regex.

Hypothesis step_ext : forall s k1 k2,
    (forall x, k1 x = k2 x) -> step s k1 = step s k2.
Hypothesis step_fails : forall s k, (forall x, k x = None) -> step s k = None.
Hypothesis step_sound : forall s k e,
    step s k = Some e -> exists s1 s2, s = (s1 ++ s2)%string /\ lang r s1 /\ k s2 = Some e.

Lemma many_ext k1 k2 n s :
  (forall x, k1 x = k2 x) -> RegExp.many step k1 n s = RegExp.many step k2 n s.
Proof.
  intros Hk. revert s. induction n as [|n IH]; intros s; simpl; [apply Hk|].
  rewrite (step_ext s _ (fun s' =>
             if Nat.ltb (String.length s') (String.length s)
             then RegExp.many step k2 n s' else None)).
  - now rewrite Hk.
  - intros x. now rewrite IH.
Qed.

Lemma many_fails k n s : (forall x, k x = None) -> RegExp.many step k n s = None.
Proof.
  intros Hk. revert s. induction n as [|n IH]; intros s; simpl; [apply Hk|].
  rewrite step_fails; [apply Hk|].
  intros x. destruct (Nat.ltb _ _); [apply IH | reflexivity].
Qed.

(** Iterations beyond the length of the string are never used. *)
Lemma many_fuel k n m s :
  String.length s <= n -> String.length s <= m ->
  RegExp.many step k n s = RegExp.many step k m s.
Proof.
  revert m s. induction n as [|n IH]; intros m s Hn Hm.
  - destruct m as [|m]; [reflexivity|]. simpl.
    rewrite step_fails; [reflexivity|].
    intros x. destruct (Nat.ltb_spec (String.length x) (String.length s)); [lia|reflexivity].
  - destruct m as [|m].
    + simpl. rewrite step_fails; [reflexivity|].
      intros x. destruct (Nat.ltb_spec (String.length x) (String.length s)); [lia|reflexivity].
    + simpl.
      rewrite (step_ext s _ (fun s' =>
                 if Nat.ltb (String.length s') (String.length s)
                 then RegExp.many step k m s' else None)); [reflexivity|].
      intros x. destruct (Nat.ltb_spec (String.length x) (String.length s)); [|reflexivity].
      apply IH; lia.
Qed.

Lemma many_sound k n s e :
  RegExp.many step k n s = Some e ->
  exists s1 s2, s = (s1 ++ s2)%string /\ lang (RegExp.Many r) s1 /\ k s2 = Some e.
Proof.
  revert s. induction n as [|n IH]; intros s; simpl.
  - intros H. exists "", s. repeat split; [constructor | assumption].
  - destruct (step s _) as [e'|] eqn:Hstep.
    + intros H. injection H as ->.
      apply step_sound in Hstep as (a & s' & -> & Ha & Hk).
      destruct (Nat.ltb _ _); [|discriminate].
      apply IH in Hk as (b & s2 & -> & Hb & Hk).
      exists (a ++ b)%string, s2. rewrite append_assoc.
      repeat split; [now constructor | assumption].
    + intros H. exists "", s. repeat split; [constructor | assumption].
Qed.
End repetition.

Lemma exec_ext r s k1 k2 :
  (forall x, k1 x = k2 x) -> RegExp.exec r s k1 = RegExp.exec r s k2.
Proof.
  revert s k1 k2. induction r as [class| |r1 IH1 r2 IH2|r1 IH1 r2 IH2|r1 IH1];
    intros s k1 k2 Hk; simpl.
  - destruct s as [|c s]; [reflexivity|]. now rewrite Hk.
  - apply Hk.
  - apply IH1. intros x. now apply IH2.
  - now rewrite (IH1 s k1 k2 Hk), (IH2 s k1 k2 Hk).
  - now apply many_ext.
Qed.

Lemma exec_fails r s k : (forall x, k x = None) -> RegExp.exec r s k = None.
Proof.
  revert s k. induction r as [class| |r1 IH1 r2 IH2|r1 IH1 r2 IH2|r1 IH1];
    intros s k Hk; simpl.
  - destruct s as [|c s]; [reflexivity|]. rewrite Hk. now destruct (class c).
  - apply Hk.
  - apply IH1. intros x. now apply IH2.
  - now rewrite IH1, IH2.
  - now apply many_fails.
Qed.

(** What the matcher consumes is a string of the grammar. *)
Lemma exec_sound r s k e :
  RegExp.exec r s k = Some e ->
  exists s1 s2, s = (s1 ++ s2)%string /\ lang r s1 /\ k s2 = Some e.
Proof.
  revert s k e. induction r as [class| |r1 IH1 r2 IH2|r1 IH1 r2 IH2|r1 IH1];
    intros s k e; simpl.
  - destruct s as [|c s]; [discriminate|].
    destruct (class c) eqn:Hc; [|discriminate].
    intros H. exists (String c ""), s. repeat split; [now constructor | assumption].
  - intros H. exists "", s. repeat split; [constructor | assumption].
  - intros H. apply IH1 in H as (a & s' & -> & Ha & H).
    apply IH2 in H as (b & s2 & -> & Hb & H).
    exists (a ++ b)%string, s2. rewrite append_assoc.
    repeat split; [now constructor | assumption].
  - destruct (RegExp.exec r1 s k) as [e'|] eqn:H1.
    + intros H. injection H as ->.
      apply IH1 in H1 as (a & s2 & -> & Ha & H). exists a, s2.
      repeat split; [now apply lang_or_l | assumption].
    + intros H. apply IH2 in H as (a & s2 & -> & Ha & H). exists a, s2.
      repeat split; [now apply lang_or_r | assumption].
  - apply many_sound. exact IH1.
Qed.

(** A prefix in the grammar, with a continuation that accepts what follows
    it, makes the matcher succeed (on this prefix or on one that an
    earlier choice finds). *)
Lemma exec_complete r s1 :
  lang r s1 ->
  forall s2 k, k s2 <> None -> RegExp.exec r (s1 ++ s2) k <> None.
Proof.
  induction 1 as [class c Hc| |r1 r2 a b Ha IHa Hb IHb|r1 r2 a Ha IHa|r1 r2 a Ha IHa
                 |r|r a b Ha IHa Hb IHb]; intros s2 k Hk; simpl.
  - now rewrite Hc.
  - assumption.
  - rewrite append_assoc. apply IHa. now apply IHb.
  - specialize (IHa s2 k Hk). now destruct (RegExp.exec r1 (a ++ s2) k).
  - specialize (IHa s2 k Hk). destruct (RegExp.exec r1 (a ++ s2) k); [discriminate|assumption].
  - destruct (String.length s2); simpl; [assumption|].
    now destruct (RegExp.exec r s2 _).
  - destruct a as [|c a]; [exact (IHb s2 k Hk)|].
    simpl String.length.
    cbn [RegExp.many].
    match goal with |- match ?x with _ => _ end <> None => destruct x eqn:E end;
      [discriminate|].
    exfalso. revert E. rewrite append_assoc. apply IHa.
    match goal with
    | |- (if ?c then _ else _) <> None =>
        replace c with true
          by (symmetry; apply Nat.ltb_lt; rewrite !length_append; simpl; lia)
    end.
    specialize (IHb s2 k Hk). simpl in IHb.
    rewrite (many_fuel (RegExp.exec r) (exec_ext r) (exec_fails r) k _
               (String.length (b ++ s2))); [assumption| |];
      rewrite !length_append; lia.
Qed.

(** [s.match(/^r/)] finds a match exactly when a prefix of [s] is in the
    grammar of [r], and what it returns is such a prefix. *)
Lemma match_start_sound r s p :
  RegExp.match_start r s = Some p ->
  lang r p /\ exists rest, s = (p ++ rest)%string.
Proof.
  unfold RegExp.match_start.
  destruct (RegExp.exec r s Some) as [e|] eqn:H; [|discriminate].
  intros Hp. injection Hp as <-.
  apply exec_sound in H as (s1 & s2 & -> & Hl & Hk). injection Hk as <-.
  rewrite length_append, Nat.add_sub, take_append. eauto.
Qed.

Lemma match_start_complete r p rest :
  lang r p -> RegExp.match_start r (p ++ rest) <> None.
Proof.
  intros H. unfold RegExp.match_start.
  pose proof (exec_complete r p H rest Some) as C.
  destruct (RegExp.exec r (p ++ rest) Some); [discriminate|].
  now apply C.
Qed.

(** ** The value parser *)

Lemma take_slice n s : (RegExp.take n s ++ RegExp.slice (String.length (RegExp.take n s)) s)%string = s.
Proof.
  revert s. induction n as [|n IH]; intros [|c s]; simpl; try reflexivity.
  now rewrite IH.
Qed.

(** What [value] returns, by the outcome of the match and the text left
    after the matched prefix. *)
Lemma value_cases s :
  match RegExp.match_start builder.number_pattern s with
  | None => builder.value (Str s) = Ast.Raw s
  | Some numberPart =>
      let unit := RegExp.slice (String.length numberPart) s in
      (numberPart ++ unit)%string = s
      /\ (unit = "" -> builder.value (Str s) = Ast.Number numberPart)
      /\ (unit = "%" -> builder.value (Str s) = Ast.Percentage numberPart)
      /\ (unit <> "" -> unit <> "%" -> builder.value (Str s) = Ast.Dimension numberPart unit)
  end.
Proof.
  unfold builder.value.
  destruct (RegExp.match_start builder.number_pattern s) as [numberPart|] eqn:Hm;
    [|reflexivity].
  cbv zeta. split; [|repeat split].
  - unfold RegExp.match_start in Hm.
    destruct (RegExp.exec _ _ _) as [rest|]; [|discriminate].
    injection Hm as <-. apply take_slice.
  - intros ->. reflexivity.
  - intros ->. reflexivity.
  - intros H1 H2.
    destruct (String.eqb _ "") eqn:E1; [now apply String.eqb_eq in E1|].
    destruct (String.eqb _ "%") eqn:E2; [now apply String.eqb_eq in E2|].
    reflexivity.
Qed.

Lemma css_value_string s : css (builder.value (Str s)) = s.
Proof.
  pose proof (value_cases s) as H.
  destruct (RegExp.match_start builder.number_pattern s) as [numberPart|].
  - cbv zeta in H. destruct H as (Hs & Hn & Hp & Hd).
    destruct (string_dec (RegExp.slice (String.length numberPart) s) "") as [E|E].
    + rewrite (Hn E). rewrite E, append_nil_r in Hs. now rewrite css_rec.
    + destruct (string_dec (RegExp.slice (String.length numberPart) s) "%") as [E'|E'].
      * rewrite (Hp E'). rewrite E' in Hs. now rewrite css_rec.
      * rewrite (Hd E E'). now rewrite css_rec.
  - rewrite H. now rewrite css_rec.
Qed.

Lemma css_value_number n : css (builder.value (Num n)) = toString (Num n).
Proof. now rewrite css_rec. Qed.

(** C6. Parsing a string and serializing the leaf gives the string back,
    whatever the string: a number with or without a suffix (["12.5"],
    ["50%"], ["10px"]) as well as a string with no numeric prefix (none of
    its prefixes is in the grammar of the pattern, so that the match
    fails), which becomes a [raw] node holding it (["var(--x)"]). *)
Theorem leaf_round_trip :
  (forall s, css (builder.value (Str s)) = s)
  /\ (forall s,
        (forall p rest, s = (p ++ rest)%string -> ~ lang builder.number_pattern p) ->
        builder.value (Str s) = Ast.Raw s /\ css (builder.value (Str s)) = s)
  /\ css (builder.value (Str "12.5")) = "12.5"
  /\ css (builder.value (Str "50%")) = "50%"
  /\ css (builder.value (Str "10px")) = "10px"
  /\ builder.value (Str "var(--x)") = Ast.Raw "var(--x)".
Proof.
  split; [exact css_value_string|].
  split.
  - intros s Hs. split; [|apply css_value_string].
    pose proof (value_cases s) as H.
    destruct (RegExp.match_start builder.number_pattern s) as [p|] eqn:Hm; [|exact H].
    apply match_start_sound in Hm as (Hp & rest & E).
    now destruct (Hs p rest E).
  - repeat split; try apply css_value_string; try reflexivity.
Qed.

(** No pattern of the number grammar starts a string that starts with
    ["v"]. *)
Lemma no_number_starts_with_v p rest :
  "var(--size)" = (p ++ rest)%string -> ~ lang builder.number_pattern p.
Proof.
  intros E Hp.
  apply (match_start_complete _ _ rest) in Hp. rewrite <- E in Hp.
  now apply Hp.
Qed.

Lemma leaf_round_trip_witness :
  builder.value (Str "var(--size)") = Ast.Raw "var(--size)"
  /\ css (builder.value (Str "var(--size)")) = "var(--size)".
Proof.
  exact (proj1 (proj2 leaf_round_trip) "var(--size)" no_number_starts_with_v).
Defined.

(** The whole of ["12.5"] is a string of the grammar of the pattern. *)
Lemma decimal_string_in_grammar : lang builder.number_pattern "12.5".
Proof.
  unfold builder.number_pattern, RegExp.Maybe, RegExp.Some1.
  apply (lang_cat _ _ "" "12.5"); [apply lang_or_r, lang_eps|].
  apply (lang_cat _ _ "12.5" ""); [|apply lang_or_r, lang_eps].
  apply lang_or_r.
  apply (lang_cat _ _ "12" ".5").
  - apply (lang_many_cons _ "1" "2"); [now constructor|].
    apply (lang_many_cons _ "2" ""); [now constructor | constructor].
  - apply (lang_cat _ _ "." "5"); [now constructor|].
    apply (lang_cat _ _ "5" ""); [now constructor | constructor].
Qed.

(** C4 (the code differs). The alternation [\d+|\d*\.\d+] is ordered: on a
    string that starts with digits the first branch matches them and the
    match ends there, so the fraction of a decimal string is left in the
    suffix.  ["12.5"], the whole of which is in the grammar, is parsed to
    a [dimension] node with number ["12"] and unit [".5"], not to a
    [number] node, and ["1.5em"] to the number ["1"] with unit [".5em"]. *)
Theorem value_decimal_string :
  builder.value (Str "12.5") = Ast.Dimension "12" ".5"
  /\ builder.value (Str "12.5") <> Ast.Number "12.5"
  /\ builder.value (Str "1.5em") = Ast.Dimension "1" ".5em"
  /\ builder.value (Str ".5") = Ast.Number ".5"
  /\ builder.value (Str "12") = Ast.Number "12".
Proof. repeat split; try (vm_compute; reflexivity). discriminate. Qed.

(** ** The sum merge *)

Lemma fold_left_push {A B : Type} (f : A -> B) (l : list A) (acc : list B) :
  fold_left (fun items x => items ++ [f x]) l acc = acc ++ map f l.
Proof.
  revert acc. induction l as [|x l IH]; intros acc; simpl.
  - now rewrite app_nil_r.
  - now rewrite IH, <- app_assoc.
Qed.

Lemma handleNode_Sum op first rest resolvedItems :
  builder.addOrSubstract_handleNode op (Ast.Sum first rest) resolvedItems
  = resolvedItems
    ++ (op, first)
       :: map (fun ov =>
                 (if flips op resolvedItems
                  then SumOp_flip (SumOp_of_token (fst ov))
                  else SumOp_of_token (fst ov), snd ov))
              rest.
Proof.
  cbn [builder.addOrSubstract_handleNode]. cbv zeta.
  rewrite fold_left_push, <- app_assoc. simpl. do 2 f_equal.
  apply map_ext. intros [tok val]. cbn [fst snd]. f_equal.
  unfold flips, SumOp_of_token.
  destruct op, (Nat.eqb (List.length resolvedItems) 0), (String.eqb tok " + "); reflexivity.
Qed.

Lemma handleNode_clacSum op first p ps resolvedItems :
  builder.addOrSubstract_handleNode op (create.clacSum first (p :: ps)) resolvedItems
  = resolvedItems
    ++ (op, first)
       :: map (fun sv =>
                 (if flips op resolvedItems then SumOp_flip (fst sv) else fst sv, snd sv))
              (p :: ps).
Proof.
  rewrite clacSum_cons, handleNode_Sum, map_map. do 2 f_equal.
  apply map_ext. intros [s v]. cbn [fst snd].
  destruct s, (flips op resolvedItems); reflexivity.
Qed.

Lemma resolve_app op pre post :
  builder.addOrSubstract_resolve op (pre ++ post)
  = fold_left (fun resolvedItems item => builder.addOrSubstract_handleItem op item resolvedItems)
      post (builder.addOrSubstract_resolve op pre).
Proof. unfold builder.addOrSubstract_resolve. apply fold_left_app. Qed.


(** ** Operands that are dropped and operands that are kept *)

Section contributions.
Variable T : Type.
Variable handleItem : AnyMaybeExpression -> list T -> list T.
Hypothesis dropped : forall item resolvedItems,
    builder.falsy item = true -> handleItem item resolvedItems = resolvedItems.
Hypothesis kept : forall item resolvedItems,
    builder.falsy item = false ->
    exists c cs, handleItem item resolvedItems = resolvedItems ++ c :: cs.

Let resolve (items : list AnyMaybeExpression) (resolvedItems : list T) : list T :=
  fold_left (fun resolvedItems item => handleItem item resolvedItems) items resolvedItems.

Lemma resolve_extends items resolvedItems :
  exists ext, resolve items resolvedItems = resolvedItems ++ ext.
Proof.
  unfold resolve. revert resolvedItems.
  induction items as [|x items IH]; intros acc; simpl.
  - exists []. now rewrite app_nil_r.
  - destruct (builder.falsy x) eqn:Hx.
    + rewrite (dropped _ _ Hx). apply IH.
    + destruct (kept x acc Hx) as (c & cs & ->).
      destruct (IH (acc ++ c :: cs)) as (ext & Hext).
      exists (c :: cs ++ ext). rewrite Hext.
      now rewrite <- app_assoc.
Qed.

Lemma resolve_all_dropped items resolvedItems :
  forallb builder.falsy items = true -> resolve items resolvedItems = resolvedItems.
Proof.
  unfold resolve. revert resolvedItems.
  induction items as [|x items IH]; intros acc H; [reflexivity|].
  simpl in H. apply andb_true_iff in H as [Hx H].
  simpl. rewrite (dropped _ _ Hx). now apply IH.
Qed.

Lemma resolve_some_kept items resolvedItems :
  forallb builder.falsy items = false ->
  exists c cs, resolve items resolvedItems = resolvedItems ++ c :: cs.
Proof.
  unfold resolve. revert resolvedItems.
  induction items as [|x items IH]; intros acc H; [discriminate|].
  simpl in H. simpl. destruct (builder.falsy x) eqn:Hx.
  - rewrite (dropped _ _ Hx). now apply IH.
  - destruct (kept x acc Hx) as (c & cs & ->).
    destruct (resolve_extends items (acc ++ c :: cs)) as (ext & Hext).
    exists c, (cs ++ ext). unfold resolve in Hext. rewrite Hext.
    now rewrite <- app_assoc.
Qed.

Lemma resolve_skip l1 x l2 :
  builder.falsy x = true -> resolve (l1 ++ x :: l2) [] = resolve (l1 ++ l2) [].
Proof.
  intros Hx. unfold resolve. rewrite !fold_left_app. simpl.
  now rewrite (dropped _ _ Hx).
Qed.
End contributions.

Lemma sum_handleNode_extends op n resolvedItems :
  exists c cs, builder.addOrSubstract_handleNode op n resolvedItems = resolvedItems ++ c :: cs.
Proof.
  revert resolvedItems.
  induction n; intros acc;
    try (do 2 eexists; reflexivity).
  - match goal with IH : forall _, exists _ _, _ |- _ => apply IH end.
  - rewrite handleNode_Sum. eauto.
Qed.

Lemma sum_handleItem_dropped op item resolvedItems :
  builder.falsy item = true ->
  builder.addOrSubstract_handleItem op item resolvedItems = resolvedItems.
Proof. unfold builder.addOrSubstract_handleItem. now intros ->. Qed.

Lemma sum_handleItem_kept op item resolvedItems :
  builder.falsy item = false ->
  exists c cs, builder.addOrSubstract_handleItem op item resolvedItems = resolvedItems ++ c :: cs.
Proof.
  unfold builder.addOrSubstract_handleItem. intros H. rewrite H.
  destruct item as [[v|n]|]; [eauto | apply sum_handleNode_extends | discriminate].
Qed.

Lemma product_handleNode_extends op n resolvedItems :
  exists c cs, builder.multiplyOrDivide_handleNode op n resolvedItems = resolvedItems ++ c :: cs.
Proof.
  revert resolvedItems.
  induction n; intros acc;
    try (do 2 eexists; reflexivity).
  - match goal with IH : forall _, exists _ _, _ |- _ => apply IH end.
  - cbn [builder.multiplyOrDivide_handleNode].
    rewrite fold_left_push, <- app_assoc. simpl. eauto.
Qed.

Lemma product_handleItem_dropped op item resolvedItems :
  builder.falsy item = true ->
  builder.multiplyOrDivide_handleItem op item resolvedItems = resolvedItems.
Proof. unfold builder.multiplyOrDivide_handleItem. now intros ->. Qed.

Lemma product_handleItem_kept op item resolvedItems :
  builder.falsy item = false ->
  exists c cs,
    builder.multiplyOrDivide_handleItem op item resolvedItems = resolvedItems ++ c :: cs.
Proof.
  unfold builder.multiplyOrDivide_handleItem. intros H. rewrite H.
  destruct item as [[v|n]|]; [eauto | apply product_handleNode_extends | discriminate].
Qed.

Lemma calcSums_handleItem_dropped item resolvedItems :
  builder.falsy item = true ->
  builder.resolveCalcSums_handleItem item resolvedItems = resolvedItems.
Proof. unfold builder.resolveCalcSums_handleItem. now intros ->. Qed.

Lemma calcSums_handleItem_kept item resolvedItems :
  builder.falsy item = false ->
  exists c cs, builder.resolveCalcSums_handleItem item resolvedItems = resolvedItems ++ c :: cs.
Proof.
  unfold builder.resolveCalcSums_handleItem. intros H. rewrite H.
  destruct item as [[v|n]|]; [eauto | destruct n; eauto | discriminate].
Qed.

Lemma addOrSubstract_raises op : raises_iff_all_dropped (builder.addOrSubstract op).
Proof.
  intros items. unfold builder.addOrSubstract, builder.addOrSubstract_resolve.
  destruct (forallb builder.falsy items) eqn:H.
  - rewrite (resolve_all_dropped _ _ (sum_handleItem_dropped op) items [] H).
    repeat split; auto. discriminate.
  - destruct (resolve_some_kept _ _ (sum_handleItem_dropped op) (sum_handleItem_kept op)
                items [] H) as (c & cs & ->).
    simpl. repeat split; try discriminate. eauto.
Qed.

Lemma multiplyOrDivide_raises op : raises_iff_all_dropped (builder.multiplyOrDivide op).
Proof.
  intros items. unfold builder.multiplyOrDivide, builder.multiplyOrDivide_resolve.
  destruct (forallb builder.falsy items) eqn:H.
  - rewrite (resolve_all_dropped _ _ (product_handleItem_dropped op) items [] H).
    repeat split; auto. discriminate.
  - destruct (resolve_some_kept _ _ (product_handleItem_dropped op)
                (product_handleItem_kept op) items [] H) as (c & cs & ->).
    simpl. repeat split; try discriminate. eauto.
Qed.

Lemma min_raises : raises_iff_all_dropped builder.min.
Proof.
  intros items. unfold builder.min, builder.resolveCalcSums.
  destruct (forallb builder.falsy items) eqn:H.
  - rewrite (resolve_all_dropped _ _ calcSums_handleItem_dropped items [] H).
    repeat split; auto. discriminate.
  - destruct (resolve_some_kept _ _ calcSums_handleItem_dropped calcSums_handleItem_kept
                items [] H) as (c & cs & ->).
    simpl. repeat split; try discriminate. eauto.
Qed.

Lemma max_raises : raises_iff_all_dropped builder.max.
Proof.
  intros items. unfold builder.max, builder.resolveCalcSums.
  destruct (forallb builder.falsy items) eqn:H.
  - rewrite (resolve_all_dropped _ _ calcSums_handleItem_dropped items [] H).
    repeat split; auto. discriminate.
  - destruct (resolve_some_kept _ _ calcSums_handleItem_dropped calcSums_handleItem_kept
                items [] H) as (c & cs & ->).
    simpl. repeat split; try discriminate. eauto.
Qed.

(** C5 (the code differs). The six entry points skip an operand on
    [if (!item)], which holds of [null] and of every falsy scalar as
    well.  [add(0)] has one operand left once the [null]s are dropped and
    raises the empty-input error all the same; so do [substract],
    [multiply], [divide], [min] and [max] on [0], and [add] on [NaN] and
    on [""].  The functions that do not run the guard take [0] as the
    operand it is: [clamp(0, "20%", "50px")] serializes to
    ["clamp(0,20%,50px)"] and [round(null, 0)] to ["round(0)"]. *)
Theorem add_zero_raises :
  without_nulls [num 0] = [num 0]
  /\ builder.add [num 0] = Throw "Expected at least one item."
  /\ builder.substract [num 0] = Throw "Expected at least one item."
  /\ builder.multiply [num 0] = Throw "Expected at least one item."
  /\ builder.divide [num 0] = Throw "Expected at least one item."
  /\ builder.min [num 0] = Throw "Expected at least one item."
  /\ builder.max [num 0] = Throw "Expected at least one item."
  /\ without_nulls [Some (EScalar (Num NaN))] = [Some (EScalar (Num NaN))]
  /\ builder.add [Some (EScalar (Num NaN))] = Throw "Expected at least one item."
  /\ without_nulls [str ""] = [str ""]
  /\ builder.add [str ""] = Throw "Expected at least one item."
  /\ ~ (forall items,
          builder.add items = Throw "Expected at least one item."
          <-> without_nulls items = [])
  /\ css (builder.clamp (EScalar (Num 0)) (EScalar (Str "20%")) (EScalar (Str "50px")))
     = "clamp(0,20%,50px)"
  /\ css_result (builder.round None (num 0) null) = Ok "round(0)".
Proof.
  repeat split. intros H.
  assert (E : builder.add [num 0] = Throw "Expected at least one item.") by reflexivity.
  apply H in E. discriminate.
Qed.

(** X17. Each of [add], [substract], [multiply], [divide], [min] and [max]
    raises ["Expected at least one item."] if and only if its guard
    [!item] drops every operand of the list, which it does to [null], to a
    falsy number and to the empty string; on every other list the call
    returns a node. *)
Theorem empty_input_error :
  raises_iff_all_dropped builder.add
  /\ raises_iff_all_dropped builder.substract
  /\ raises_iff_all_dropped builder.multiply
  /\ raises_iff_all_dropped builder.divide
  /\ raises_iff_all_dropped builder.min
  /\ raises_iff_all_dropped builder.max.
Proof.
  repeat split;
    first [apply addOrSubstract_raises | apply multiplyOrDivide_raises
          | apply min_raises | apply max_raises].
Qed.

Lemma empty_input_error_witness :
  (builder.add [null; Some (EScalar (Num NaN)); str ""]
   = Throw "Expected at least one item.")
  /\ (exists n, builder.multiply [null; str "2px"] = Ok n).
Proof.
  split.
  - apply (proj1 empty_input_error [null; Some (EScalar (Num NaN)); str ""]). reflexivity.
  - apply (proj1 (proj2 (proj2 empty_input_error)) [null; str "2px"]). reflexivity.
Defined.

(** ** Falsy operands *)

Lemma addOrSubstract_skip op l1 x l2 :
  builder.falsy x = true ->
  builder.addOrSubstract op (l1 ++ x :: l2) = builder.addOrSubstract op (l1 ++ l2).
Proof.
  intros Hx. unfold builder.addOrSubstract, builder.addOrSubstract_resolve.
  now rewrite (resolve_skip _ _ (sum_handleItem_dropped op) l1 x l2 Hx).
Qed.

Lemma multiplyOrDivide_skip op l1 x l2 :
  builder.falsy x = true ->
  builder.multiplyOrDivide op (l1 ++ x :: l2) = builder.multiplyOrDivide op (l1 ++ l2).
Proof.
  intros Hx. unfold builder.multiplyOrDivide, builder.multiplyOrDivide_resolve.
  now rewrite (resolve_skip _ _ (product_handleItem_dropped op) l1 x l2 Hx).
Qed.

(** C10. In [add], [substract], [multiply] and [divide] an operand that is
    the number [0] or the empty string is dropped as [null] is: the call
    returns what it returns on the list without that operand.
    [add(1, 0, 2)] serializes to ["calc(1 + 2)"], [add(0)] raises
    ["Expected at least one item."], and [round] with the interval [0] or
    [""] builds the node it builds with no interval. *)
Theorem falsy_operands_are_absent :
  (forall op resolvedItems,
      builder.addOrSubstract_handleItem op (num 0) resolvedItems = resolvedItems
      /\ builder.addOrSubstract_handleItem op (str "") resolvedItems = resolvedItems
      /\ builder.addOrSubstract_handleItem op null resolvedItems = resolvedItems)
  /\ (forall op resolvedItems,
      builder.multiplyOrDivide_handleItem op (num 0) resolvedItems = resolvedItems
      /\ builder.multiplyOrDivide_handleItem op (str "") resolvedItems = resolvedItems
      /\ builder.multiplyOrDivide_handleItem op null resolvedItems = resolvedItems)
  /\ (forall l1 l2,
      builder.add (l1 ++ num 0 :: l2) = builder.add (l1 ++ l2)
      /\ builder.add (l1 ++ str "" :: l2) = builder.add (l1 ++ l2)
      /\ builder.add (l1 ++ null :: l2) = builder.add (l1 ++ l2))
  /\ (forall l1 l2,
      builder.substract (l1 ++ num 0 :: l2) = builder.substract (l1 ++ l2)
      /\ builder.substract (l1 ++ str "" :: l2) = builder.substract (l1 ++ l2)
      /\ builder.substract (l1 ++ null :: l2) = builder.substract (l1 ++ l2))
  /\ (forall l1 l2,
      builder.multiply (l1 ++ num 0 :: l2) = builder.multiply (l1 ++ l2)
      /\ builder.multiply (l1 ++ str "" :: l2) = builder.multiply (l1 ++ l2)
      /\ builder.multiply (l1 ++ null :: l2) = builder.multiply (l1 ++ l2))
  /\ (forall l1 l2,
      builder.divide (l1 ++ num 0 :: l2) = builder.divide (l1 ++ l2)
      /\ builder.divide (l1 ++ str "" :: l2) = builder.divide (l1 ++ l2)
      /\ builder.divide (l1 ++ null :: l2) = builder.divide (l1 ++ l2))
  /\ css_result (builder.add [num 1; num 0; num 2]) = Ok "calc(1 + 2)"
  /\ builder.add [num 0] = Throw "Expected at least one item."
  /\ (forall strategy value,
      let no_interval :=
        Ok (create.round strategy (builder.anyExprToCalcSum value) None) in
      builder.round strategy (Some value) (num 0) = no_interval
      /\ builder.round strategy (Some value) (str "") = no_interval
      /\ builder.round strategy (Some value) null = no_interval).
Proof.
  split; [|split]; [now intros | now intros |].
  split; [|split; [|split; [|split]]];
    try (intros l1 l2; unfold builder.add, builder.substract; repeat split;
         apply addOrSubstract_skip; reflexivity);
    try (intros l1 l2; unfold builder.multiply, builder.divide; repeat split;
         apply multiplyOrDivide_skip; reflexivity).
  repeat split.
Qed.

(** ** The product merge *)

Lemma product_handleNode_Sum op first rest resolvedItems :
  builder.multiplyOrDivide_handleNode op (Ast.Sum first rest) resolvedItems
  = resolvedItems ++ [(op, create.calcValue.group (Ast.Sum first rest))].
Proof. reflexivity. Qed.

(** A factor contributes the same pairs wherever it stands. *)
Lemma product_handleNode_app op n resolvedItems :
  builder.multiplyOrDivide_handleNode op n resolvedItems
  = resolvedItems ++ builder.multiplyOrDivide_handleNode op n [].
Proof.
  induction n; try reflexivity.
  - assumption.
  - cbn [builder.multiplyOrDivide_handleNode]. now rewrite !fold_left_push, app_assoc.
Qed.

Lemma product_handleItem_app op item resolvedItems :
  builder.multiplyOrDivide_handleItem op item resolvedItems
  = resolvedItems ++ builder.multiplyOrDivide_handleItem op item [].
Proof.
  unfold builder.multiplyOrDivide_handleItem.
  destruct (builder.falsy item); [now rewrite app_nil_r|].
  destruct item as [[v|n]|];
    [reflexivity | apply product_handleNode_app | now rewrite app_nil_r].
Qed.

(** What an operand taken as it stands adds to the text of the chain. *)
Lemma product_contribution_css op c :
  taken_as_is c = true ->
  String.concat ""
    (map (fun ov => (fst ov ++ css (snd ov))%string)
       (builder.multiplyOrDivide_handleItem op (Some c) []))
  = (op ++ operand_css c)%string.
Proof.
  intros Hc. unfold builder.multiplyOrDivide_handleItem.
  destruct c as [v|n].
  - cbn [taken_as_is] in Hc. apply negb_true_iff in Hc. rewrite Hc.
    cbn [app map fst snd]. rewrite concat_cons. simpl String.concat.
    rewrite append_nil_r. f_equal.
    destruct v as [z|s]; [apply css_value_number | apply css_value_string].
  - cbn [builder.falsy].
    destruct n; try discriminate Hc;
      try (cbn [builder.multiplyOrDivide_handleNode app map fst snd];
           rewrite concat_cons; simpl String.concat; now rewrite append_nil_r).
    cbn [builder.multiplyOrDivide_handleNode operand_css].
    rewrite fold_left_push. cbn [app map fst snd]. rewrite concat_cons, css_Product.
    rewrite append_assoc, map_map. do 3 f_equal.
Qed.

(** C3 as stated fails: with [c] a [calc] node the wrapper of [c] is taken
    off and the sum under it is parenthesized, so the text of [c] does not
    follow the [*]; with [c] a ["calc-sum"] node, [c] is parenthesized as
    the first operand is. *)
Lemma multiply_by_calc_unwraps :
  let s := create.clacSum (create.calcValue.number (Num 1))
             [(plus, create.calcValue.number (Num 2))] in
  let c := create.calc (create.clacSum (create.calcValue.number (Num 3))
                          [(plus, create.calcValue.number (Num 4))]) in
  css c = "calc(3 + 4)"
  /\ css_result (builder.multiply [node s; node c]) = Ok "calc((1 + 2)*(3 + 4))"
  /\ css_result (builder.multiply [node s; node c]) <> Ok "calc((1 + 2)*calc(3 + 4))"
  /\ css s = "1 + 2"
  /\ css_result (builder.multiply [node s; node s]) = Ok "calc((1 + 2)*(1 + 2))"
  /\ css_result (builder.multiply [node s; node s]) <> Ok "calc((1 + 2)*1 + 2)".
Proof. repeat split; discriminate. Qed.

(** C3 (amended). [multiply] and [divide] append a ["calc-sum"] operand
    wrapped in a [group] node, whatever was resolved before, and never
    merge its terms.  [multiply(clacSum(a, ["+", b]), c)] serializes to
    ["calc((a + b)*c)"] for all nodes [a] and [b] and every operand [c]
    that the call keeps and takes as it stands: a scalar, or a node other
    than a [calc] and a ["calc-sum"].  A ["calc-sum"] [c] is parenthesized
    in its turn, ["calc((a + b)*(c))"], and a [calc] operand contributes
    what the expression inside it contributes. *)
Theorem sum_operand_is_grouped :
  (forall op first rest resolvedItems,
      builder.multiplyOrDivide_handleItem op (node (Ast.Sum first rest)) resolvedItems
      = resolvedItems ++ [(op, create.calcValue.group (Ast.Sum first rest))])
  /\ (forall op first p ps resolvedItems,
      builder.multiplyOrDivide_handleItem op (node (create.clacSum first (p :: ps)))
        resolvedItems
      = resolvedItems ++ [(op, create.calcValue.group (create.clacSum first (p :: ps)))])
  /\ (forall a b c,
      taken_as_is c = true ->
      css_result (builder.multiply [node (create.clacSum a [(plus, b)]); Some c])
      = Ok ("calc((" ++ css a ++ " + " ++ css b ++ ")*" ++ operand_css c ++ ")")%string)
  /\ (forall a b first rest,
      css_result
        (builder.multiply [node (create.clacSum a [(plus, b)]); node (Ast.Sum first rest)])
      = Ok ("calc((" ++ css a ++ " + " ++ css b ++ ")*("
            ++ css (Ast.Sum first rest) ++ "))")%string)
  /\ (forall op sum resolvedItems,
      builder.multiplyOrDivide_handleItem op (node (create.calc sum)) resolvedItems
      = builder.multiplyOrDivide_handleItem op (node sum) resolvedItems)
  /\ (forall op pre post sum,
      builder.multiplyOrDivide op (pre ++ node (create.calc sum) :: post)
      = builder.multiplyOrDivide op (pre ++ node sum :: post)).
Proof.
  split; [reflexivity|]. split; [reflexivity|].
  assert (grouped : forall a b,
             builder.multiplyOrDivide_handleItem "*" (node (create.clacSum a [(plus, b)])) []
             = [("*", create.calcValue.group (create.clacSum a [(plus, b)]))])
    by reflexivity.
  split; [|split; [|split]].
  - intros a b c Hc.
    unfold builder.multiply, builder.multiplyOrDivide, builder.multiplyOrDivide_resolve.
    cbn [fold_left]. rewrite grouped.
    rewrite product_handleItem_app. cbn [app css_result result_map bind snd].
    rewrite css_calc, css_calcProduct, css_group, css_clacSum.
    rewrite (product_contribution_css "*" c Hc).
    simpl. now rewrite !append_assoc.
  - intros a b first rest.
    unfold builder.multiply, builder.multiplyOrDivide, builder.multiplyOrDivide_resolve.
    cbn [fold_left]. rewrite grouped.
    change (builder.multiplyOrDivide_handleItem "*" (node (Ast.Sum first rest)) ?acc)
      with (acc ++ [("*", create.calcValue.group (Ast.Sum first rest))]).
    cbn [app css_result result_map bind snd].
    rewrite css_calc, css_calcProduct, css_group, css_clacSum.
    simpl. rewrite css_group.
    repeat (progress (cbn [append]; rewrite ?append_assoc)). reflexivity.
  - reflexivity.
  - intros op pre post sum.
    unfold builder.multiplyOrDivide, builder.multiplyOrDivide_resolve.
    rewrite !fold_left_app. reflexivity.
Qed.

Lemma sum_operand_is_grouped_witness :
  css_result
    (builder.multiply
       [node (create.clacSum (create.calcValue.number (Num 10))
                [(plus, create.calcValue.number (Num 2))]);
        num 2])
  = Ok "calc((10 + 2)*2)".
Proof.
  apply (proj1 (proj2 (proj2 sum_operand_is_grouped))
           (create.calcValue.number (Num 10)) (create.calcValue.number (Num 2))
           (EScalar (Num 2))).
  reflexivity.
Defined.

(** ** Flattening of sums *)

Lemma value_one_term v : one_term (builder.value v) = true.
Proof.
  destruct v as [z|s]; [reflexivity|]. unfold builder.value.
  destruct (RegExp.match_start _ _); [|reflexivity].
  cbv zeta. now repeat destruct (String.eqb _ _).
Qed.

Lemma handleNode_one_term op n resolvedItems :
  one_term n = true ->
  builder.addOrSubstract_handleNode op n resolvedItems = resolvedItems ++ [(op, n)].
Proof. now destruct n. Qed.

(** Under [+] an operand contributes the same terms wherever it stands. *)
Lemma plus_handleNode_app n resolvedItems :
  builder.addOrSubstract_handleNode plus n resolvedItems
  = resolvedItems ++ builder.addOrSubstract_handleNode plus n [].
Proof.
  induction n; try reflexivity.
  - assumption.
  - now rewrite !handleNode_Sum.
Qed.

Lemma plus_handleItem_app item resolvedItems :
  builder.addOrSubstract_handleItem plus item resolvedItems
  = resolvedItems ++ builder.addOrSubstract_handleItem plus item [].
Proof.
  unfold builder.addOrSubstract_handleItem.
  destruct (builder.falsy item); [now rewrite app_nil_r|].
  destruct item as [[v|n]|]; [reflexivity | apply plus_handleNode_app | now rewrite app_nil_r].
Qed.

Lemma well_shaped_app l1 l2 : well_shaped l1 -> well_shaped l2 -> well_shaped (l1 ++ l2).
Proof.
  intros [->|(f & rest & -> & H1)] H2; [assumption|].
  right. exists f, (rest ++ l2). split; [reflexivity|].
  intros E. apply app_eq_nil in E as [E _]. auto.
Qed.

Lemma plus_handleNode_shape n :
  sum_has_pairs n = true -> well_shaped (builder.addOrSubstract_handleNode plus n []).
Proof.
  induction n; intros H;
    try (right; eexists _, []; split; [reflexivity | reflexivity]).
  - auto.
  - right. rewrite handleNode_Sum. simpl app. eexists _, _. split; [reflexivity|].
    intros E. simpl in H. destruct rest; [discriminate H | discriminate E].
Qed.

Lemma plus_handleItem_shape item :
  operand_has_pairs item = true ->
  well_shaped (builder.addOrSubstract_handleItem plus item []).
Proof.
  intros H. unfold builder.addOrSubstract_handleItem.
  destruct (builder.falsy item); [now left|].
  destruct item as [[v|n]|]; [| now apply plus_handleNode_shape | now left].
  right. exists (builder.value v), []. split; [reflexivity|].
  intros _. apply value_one_term.
Qed.

Lemma plus_resolve_shape items :
  forallb operand_has_pairs items = true ->
  well_shaped (builder.addOrSubstract_resolve plus items).
Proof.
  induction items as [|x items IH] using rev_ind; intros H; [now left|].
  rewrite forallb_app in H. apply andb_true_iff in H as [H1 H2].
  simpl in H2. rewrite andb_true_r in H2.
  rewrite resolve_app. cbn [fold_left]. rewrite plus_handleItem_app.
  apply well_shaped_app; [now apply IH | now apply plus_handleItem_shape].
Qed.

(** Handling the sum that [clacSum] builds from well-shaped terms gives the
    terms back. *)
Lemma plus_handleNode_clacSum f rest :
  (rest = [] -> one_term f = true) ->
  builder.addOrSubstract_handleNode plus (create.clacSum f rest) [] = (plus, f) :: rest.
Proof.
  intros H. destruct rest as [|p ps].
  - rewrite clacSum_nil. now rewrite handleNode_one_term by auto.
  - rewrite handleNode_clacSum. cbn [app]. f_equal.
    transitivity (map (fun sv : SumOp * Ast.CalcSum => sv) (p :: ps));
      [apply map_ext; now intros [s v] | apply map_id].
Qed.

(** [add] of the result of an [add] continues the inner resolution. *)
Lemma add_flattens items1 items2 r :
  forallb operand_has_pairs items1 = true ->
  builder.add items1 = Ok r ->
  builder.add (node r :: items2) = builder.add (items1 ++ items2)
  /\ builder.add (node (create.calc r) :: items2) = builder.add (items1 ++ items2).
Proof.
  intros Hinv Hr.
  assert (E : builder.addOrSubstract_handleNode plus r []
              = builder.addOrSubstract_resolve plus items1).
  { unfold builder.add, builder.addOrSubstract in Hr.
    destruct (plus_resolve_shape items1 Hinv) as [E|(f & rest & E & Hf)];
      rewrite E in Hr; [discriminate|].
    injection Hr as <-. rewrite E. cbn [snd create.calc builder.addOrSubstract_handleNode].
    now apply plus_handleNode_clacSum. }
  unfold builder.add, builder.addOrSubstract.
  rewrite resolve_app.
  split; unfold builder.addOrSubstract_resolve at 1; cbn [fold_left];
    change (builder.addOrSubstract_handleItem plus (node ?n) [])
      with (builder.addOrSubstract_handleNode plus n []);
    cbn [create.calc builder.addOrSubstract_handleNode]; now rewrite E.
Qed.

(** *** The [calc] nodes of a merged sum *)

Lemma terms_calcs_app {Op : Type} (l1 l2 : list (Op * Ast.CalcSum)) :
  terms_calcs (l1 ++ l2) = terms_calcs l1 + terms_calcs l2.
Proof. unfold terms_calcs. now rewrite map_app, list_sum_app. Qed.

Lemma terms_calcs_map {A B : Type} (g : A * Ast.CalcSum -> B * Ast.CalcSum)
    (l : list (A * Ast.CalcSum)) :
  (forall x, snd (g x) = snd x) -> terms_calcs (map g l) = terms_calcs l.
Proof.
  intros Hg. unfold terms_calcs. rewrite map_map. f_equal.
  apply map_ext. intros x. now rewrite Hg.
Qed.

Lemma value_calcs v : calcs (builder.value v) = 0.
Proof.
  destruct v as [z|s]; [reflexivity|]. unfold builder.value.
  destruct (RegExp.match_start _ _); [|reflexivity].
  cbv zeta. now repeat destruct (String.eqb _ _).
Qed.

Lemma clacSum_calcs f rest : calcs (create.clacSum f rest) = calcs f + terms_calcs rest.
Proof.
  destruct rest as [|p ps].
  - rewrite clacSum_nil. unfold terms_calcs. simpl. lia.
  - rewrite clacSum_cons. cbn [calcs]. f_equal.
    now apply (terms_calcs_map
                 (fun op : SumOp * Ast.CalcSum =>
                    ((" " ++ SumOp_text (fst op) ++ " ")%string, snd op))).
Qed.

(** An operand adds to the terms the [calc] nodes it holds below its own
    wrappers, and nothing for the wrappers. *)
Lemma sum_handleNode_calcs op n resolvedItems :
  terms_calcs (builder.addOrSubstract_handleNode op n resolvedItems)
  = terms_calcs resolvedItems + calcs (under_calc n).
Proof.
  revert resolvedItems.
  induction n; intros acc;
    try (cbn [builder.addOrSubstract_handleNode under_calc];
         rewrite terms_calcs_app; unfold terms_calcs; simpl; lia).
  - match goal with IH : forall _, _ = _ |- _ => apply IH end.
  - rewrite handleNode_Sum, terms_calcs_app. cbn [under_calc calcs]. f_equal.
    change (terms_calcs ((op, n) :: ?l)) with (calcs n + terms_calcs l).
    f_equal. now apply terms_calcs_map.
Qed.

Lemma sum_handleItem_calcs op item resolvedItems :
  terms_calcs (builder.addOrSubstract_handleItem op item resolvedItems)
  = terms_calcs resolvedItems + operand_calcs item.
Proof.
  unfold builder.addOrSubstract_handleItem.
  destruct item as [[v|n]|]; cbn [operand_calcs].
  - destruct (builder.falsy _); [lia|].
    rewrite terms_calcs_app. unfold terms_calcs at 2. simpl.
    rewrite value_calcs. lia.
  - cbn [builder.falsy]. apply sum_handleNode_calcs.
  - cbn [builder.falsy]. lia.
Qed.

Lemma sum_resolve_calcs op items :
  terms_calcs (builder.addOrSubstract_resolve op items)
  = list_sum (map operand_calcs items).
Proof.
  induction items as [|x items IH] using rev_ind; [reflexivity|].
  rewrite resolve_app. cbn [fold_left].
  rewrite sum_handleItem_calcs, IH, map_app, list_sum_app. simpl. lia.
Qed.

(** C2 as stated fails: a [calc] that is a term of a ["calc-sum"] operand
    is not an operand itself, and stays in the output.  With [a] the sum
    [clacSum(calc(1 + 2), ["+", 3])], the three calls return the same node,
    and that node holds a [calc] inside the outer one. *)
Lemma calc_term_of_a_sum_survives :
  let a :=
    node (create.clacSum
            (create.calc (create.clacSum (create.calcValue.number (Num 1))
                            [(plus, create.calcValue.number (Num 2))]))
            [(plus, create.calcValue.number (Num 3))]) in
  css_result (builder.add [a; num 4; num 5]) = Ok "calc(calc(1 + 2) + 3 + 4 + 5)"
  /\ css_result (bind (builder.add [a; num 4]) (fun ab => builder.add [node ab; num 5]))
     = Ok "calc(calc(1 + 2) + 3 + 4 + 5)"
  /\ css_result
       (bind (builder.add [a; num 4]) (fun ab => builder.add [node (create.calc ab); num 5]))
     = Ok "calc(calc(1 + 2) + 3 + 4 + 5)"
  /\ result_map calcs (builder.add [a; num 4; num 5]) = Ok 2.
Proof. repeat split. Qed.

(** C2 (amended). For all operands [a], [b], [c] such that [add(a, b)]
    returns a node, and [a] and [b] keep the invariant of chains (a
    ["calc-sum"] operand has at least one operator pair, as every sum
    built by [clacSum] has), [add(add(a, b), c)], [add(calc(add(a, b)), c)]
    and [add(a, b, c)] return the same node, hence the same string; a
    [calc] operand contributes what its inner sum contributes.  The result
    of [add] is one [calc] around the sum of the resolved terms, and the
    [calc] nodes in it are that one and those that the operands hold below
    their own [calc] wrappers: the wrapper of an operand never survives, a
    [calc] inside an operand does.  When no operand holds a [calc] below
    its wrappers, the outer [calc] is the only one of the result. *)
Theorem add_is_flattened :
  (forall a b c ab,
      operand_has_pairs a = true ->
      operand_has_pairs b = true ->
      builder.add [a; b] = Ok ab ->
      builder.add [node ab; c] = builder.add [a; b; c]
      /\ builder.add [node (create.calc ab); c] = builder.add [a; b; c]
      /\ css_result (builder.add [node ab; c]) = css_result (builder.add [a; b; c])
      /\ css_result (builder.add [node (create.calc ab); c])
         = css_result (builder.add [a; b; c]))
  /\ (forall op sum resolvedItems,
      builder.addOrSubstract_handleItem op (node (create.calc sum)) resolvedItems
      = builder.addOrSubstract_handleItem op (node sum) resolvedItems)
  /\ (forall items r,
      builder.add items = Ok r ->
      exists first rest,
        r = create.calc (create.clacSum first rest)
        /\ map snd (builder.addOrSubstract_resolve plus items) = first :: map snd rest)
  /\ (forall items r,
      builder.add items = Ok r ->
      calcs r = 1 + list_sum (map operand_calcs items))
  /\ (forall items r,
      forallb (fun item => Nat.eqb (operand_calcs item) 0) items = true ->
      builder.add items = Ok r ->
      exists sum, r = create.calc sum /\ calcs sum = 0).
Proof.
  assert (count : forall items r,
             builder.add items = Ok r ->
             exists first rest,
               r = create.calc (create.clacSum first rest)
               /\ map snd (builder.addOrSubstract_resolve plus items) = first :: map snd rest
               /\ calcs (create.clacSum first rest) = list_sum (map operand_calcs items)).
  { intros items r. unfold builder.add, builder.addOrSubstract.
    pose proof (sum_resolve_calcs plus items) as C.
    destruct (builder.addOrSubstract_resolve plus items) as [|[s f] rest]; [discriminate|].
    intros H. injection H as <-. exists f, rest.
    split; [reflexivity|]. split; [reflexivity|].
    now rewrite clacSum_calcs, <- C. }
  split; [|split; [|split; [|split]]].
  - intros a b c ab Ha Hb Hab.
    destruct (add_flattens [a; b] [c] ab) as [E1 E2]; [|assumption|].
    + simpl. now rewrite Ha, Hb.
    + simpl app in E1, E2. now rewrite E1, E2.
  - reflexivity.
  - intros items r H. destruct (count items r H) as (f & rest & E & R & _). eauto.
  - intros items r H. destruct (count items r H) as (f & rest & -> & _ & C).
    cbn [create.calc calcs]. now rewrite C.
  - intros items r Hfree H. destruct (count items r H) as (f & rest & -> & _ & C).
    eexists. split; [reflexivity|]. rewrite C. clear - Hfree.
    induction items as [|x items IH]; [reflexivity|].
    cbn [forallb] in Hfree. apply andb_true_iff in Hfree as [Hx Hfree].
    apply Nat.eqb_eq in Hx. cbn [map list_sum]. rewrite Hx. now apply IH.
Qed.

Lemma add_is_flattened_witness :
  builder.add
    [node (Ast.Calc (Ast.Sum (Ast.Number "1") [(" + ", Ast.Dimension "2" "px")]));
     node (create.calcProduct (create.calcValue.number (Num 3))
             [("*", create.calcValue.number (Num 4))])]
  = builder.add [num 1; str "2px";
                 node (create.calcProduct (create.calcValue.number (Num 3))
                         [("*", create.calcValue.number (Num 4))])]
  /\ calcs (Ast.Calc (Ast.Sum (Ast.Number "1") [(" + ", Ast.Dimension "2" "px")]))
     = 1 + list_sum (map operand_calcs [num 1; str "2px"])
  /\ (exists sum,
        Ast.Calc (Ast.Sum (Ast.Number "1") [(" + ", Ast.Dimension "2" "px")])
        = create.calc sum
        /\ calcs sum = 0).
Proof.
  split; [|split].
  - refine (proj1 (proj1 add_is_flattened (num 1) (str "2px") _
                     (Ast.Calc (Ast.Sum (Ast.Number "1") [(" + ", Ast.Dimension "2" "px")]))
                     _ _ _));
      reflexivity.
  - apply (proj1 (proj2 (proj2 (proj2 add_is_flattened))) [num 1; str "2px"]).
    reflexivity.
  - apply (proj2 (proj2 (proj2 (proj2 add_is_flattened))) [num 1; str "2px"]);
      reflexivity.
Defined.

(** Why the invariant of chains is asked of [a] and [b]: a ["calc-sum"]
    written by hand with no operator pair hands its first term over as it
    is, and a later [add] unwraps what an earlier one kept. *)
Example add_of_sum_without_pairs :
  let a := node (Ast.Sum (Ast.Calc (Ast.Sum (Ast.Number "1") [(" + ", Ast.Number "2")])) []) in
  css_result (bind (builder.add [a; null]) (fun ab => builder.add [node ab; num 3]))
  = Ok "calc(1 + 2 + 3)"
  /\ css_result (builder.add [a; null; num 3]) = Ok "calc(calc(1 + 2) + 3)".
Proof. split; reflexivity. Qed.

(** ** The tests of the repository *)

Module builder_test.
Import create.calcValue.

Example add_throws_with_no_items : builder.add [] = Throw "Expected at least one item.".
Proof. reflexivity. Qed.

Example add_adds_numbers :
  css_result (builder.add [num 1; num 2; num 3]) = Ok "calc(1 + 2 + 3)".
Proof. reflexivity. Qed.

Example add_adds_dimensions_with_mixed_sources :
  css_result
    (builder.add
       [str "5px";
        node (create.clacSum (dimension (Num 10) "px") [(plus, number (Num 2))]);
        node (dimension (Num 3) "px")])
  = Ok "calc(5px + 10px + 2 + 3px)".
Proof. reflexivity. Qed.

Example add_merges_calc_sum_operands :
  css_result
    (builder.add
       [node (create.clacSum (number (Num 1))
                [(plus, number (Num 2)); (minus, number (Num 3))]);
        num 4])
  = Ok "calc(1 + 2 - 3 + 4)".
Proof. reflexivity. Qed.

Example add_unwraps_calc :
  css_result
    (builder.add
       [node (create.calc (create.clacSum (number (Num 1)) [(plus, number (Num 2))]));
        num 3])
  = Ok "calc(1 + 2 + 3)".
Proof. reflexivity. Qed.

Example substract_substracts_numbers :
  css_result (builder.substract [num 10; num 2; num 3]) = Ok "calc(10 - 2 - 3)".
Proof. reflexivity. Qed.

Example substract_unwraps_calc :
  css_result
    (builder.substract
       [node (create.calc (create.clacSum (number (Num 7)) [(minus, number (Num 2))]));
        num 1])
  = Ok "calc(7 - 2 - 1)".
Proof. reflexivity. Qed.

Example multiply_multiplies_numbers :
  css_result (builder.multiply [num 2; num 3; num 4]) = Ok "calc(2*3*4)".
Proof. reflexivity. Qed.

Example multiply_merges_calc_product_operands :
  css_result
    (builder.multiply
       [node (create.calcProduct (number (Num 2))
                [("*", number (Num 3)); ("/", number (Num 4))]);
        num 5])
  = Ok "calc(2*3/4*5)".
Proof. reflexivity. Qed.

Example multiply_unwraps_calc :
  css_result
    (builder.multiply
       [node (create.calc (create.calcProduct (number (Num 6)) [("*", number (Num 2))]));
        num 3])
  = Ok "calc(6*2*3)".
Proof. reflexivity. Qed.

Example divide_divides_numbers :
  css_result (builder.divide [num 100; num 2; num 5]) = Ok "calc(100/2/5)".
Proof. reflexivity. Qed.

Example divide_wraps_calc_sum_in_group :
  css_result
    (builder.divide
       [node (create.clacSum (number (Num 9)) [(minus, number (Num 3))]); num 3])
  = Ok "calc((9 - 3)/3)".
Proof. reflexivity. Qed.

Example min_accepts_numbers_and_strings :
  css_result (builder.min [num 10; str "20px"; str "50%"]) = Ok "min(10,20px,50%)".
Proof. reflexivity. Qed.

Example max_unwraps_calc :
  css_result
    (builder.max
       [node (create.calc (create.clacSum (number (Num 5)) [(minus, number (Num 1))]));
        num 2])
  = Ok "max(5 - 1,2)".
Proof. reflexivity. Qed.

Example clamp_supports_none_keywords :
  css (builder.clamp (EScalar (Str "none")) (EScalar (Str "50%")) (EScalar (Str "none")))
  = "clamp(none,50%,none)".
Proof. reflexivity. Qed.

Example exp_wraps_numbers_and_strings :
  css (builder.exp (EScalar (Str "2.5"))) = "exp(2.5)".
Proof. reflexivity. Qed.

Example pow_creates_pow_with_strings :
  css (builder.pow (EScalar (Str "var(--base)")) (EScalar (Str "2"))) = "pow(var(--base),2)".
Proof. reflexivity. Qed.

Example round_throws_for_missing_value :
  builder.round None null null = Throw "Expected at least one item.".
Proof. reflexivity. Qed.

Example round_rounds_with_default_strategy :
  css_result (builder.round None (str "var(--width)") (str "50px"))
  = Ok "round(var(--width),50px)".
Proof. reflexivity. Qed.

Example round_rounds_with_to_zero_strategy :
  css_result (builder.roundToZero (str "-105px") (num 10)) = Ok "round(to-zero,-105px,10)".
Proof. reflexivity. Qed.

Example var_with_fallback :
  css (var "--gutter"
         (Some (create.clacSum (dimension (Num 10) "px") [(plus, number (Num 2))])))
  = "var(--gutter,10px + 2)".
Proof. reflexivity. Qed.

Example clacSum_works_with_calc_products :
  css (create.clacSum (create.calcProduct (number (Num 10)) [("*", number (Num 2))])
         [(plus, number (Num 5))])
  = "10*2 + 5".
Proof. reflexivity. Qed.

Example value_parses_number_strings : css (builder.value (Str "12.5")) = "12.5".
Proof. reflexivity. Qed.

Example value_parses_percentages : builder.value (Str "50%") = Ast.Percentage "50".
Proof. reflexivity. Qed.

Example value_parses_dimensions : builder.value (Str "10px") = Ast.Dimension "10" "px".
Proof. reflexivity. Qed.

Example value_keeps_raw_values : builder.value (Str "var(--size)") = Ast.Raw "var(--size)".
Proof. reflexivity. Qed.

Example value_reads_exponents :
  builder.value (Str "1e5px") = Ast.Dimension "1e5" "px"
  /\ builder.value (Str "-2E-3") = Ast.Number "-2E-3"
  /\ builder.value (Str "1e+") = Ast.Dimension "1" "e+"
  /\ builder.value (Str "+.5%") = Ast.Percentage "+.5"
  /\ builder.value (Str "-") = Ast.Raw "-".
Proof. repeat split. Qed.

End builder_test.

Module create_test.
Import create.calcValue.

Example creates_dimension_with_rem_unit :
  css (dimension (Num (printed "1.5")) "rem") = "1.5rem".
Proof. reflexivity. Qed.

Example creates_max_with_complex_expressions :
  css (create.max (dimension (Num 320) "px")
         [create.calcProduct (dimension (Num 100) "vw")
            [("*", number (Num (printed "0.8")))]])
  = "max(320px,100vw*0.8)".
Proof. reflexivity. Qed.

Example multiple_nested_operations :
  css (create.calc
         (create.clacSum
            (create.calcProduct (dimension (Num 100) "vw")
               [("*", number (Num (printed "0.5")))])
            [(minus, create.calcProduct (dimension (Num 50) "px")
                       [("/", number (Num 2))])]))
  = "calc(100vw*0.5 - 50px/2)".
Proof. reflexivity. Qed.

(** A fractional number is an operand like any other; its string is read
    by [value] as a string is. *)
Example multiply_by_a_fraction :
  css_result (builder.multiply [str "100vw"; Some (EScalar (Num (printed "0.8")))])
  = Ok "calc(100vw*0.8)"
  /\ builder.value (Num (printed "0.8")) = Ast.Number "0.8"
  /\ builder.value (Str "0.8") = Ast.Dimension "0" ".8".
Proof. repeat split. Qed.

End create_test.

(* ===================================================================== *)
(** * Further properties of the builder *)
(* ===================================================================== *)

(** ** Nested calls of one operation *)

Lemma sum_handleItem_extends op item resolvedItems :
  exists ext, builder.addOrSubstract_handleItem op item resolvedItems = resolvedItems ++ ext.
Proof.
  destruct (builder.falsy item) eqn:H.
  - exists []. now rewrite sum_handleItem_dropped, app_nil_r.
  - destruct (sum_handleItem_kept op item resolvedItems H) as (c & cs & ->). eauto.
Qed.

Lemma sum_handleNode_first op n :
  sum_has_pairs n = true ->
  exists f rest,
    builder.addOrSubstract_handleNode op n [] = (op, f) :: rest
    /\ (rest = [] -> one_term f = true).
Proof.
  induction n; intros H;
    try (eexists _, []; split; reflexivity).
  - auto.
  - rewrite handleNode_Sum. simpl app. eexists _, _. split; [reflexivity|].
    intros E. simpl in H. destruct rest; [discriminate H | discriminate E].
Qed.

Lemma sum_handleItem_first op item :
  operand_has_pairs item = true ->
  builder.addOrSubstract_handleItem op item [] = []
  \/ exists f rest,
       builder.addOrSubstract_handleItem op item [] = (op, f) :: rest
       /\ (rest = [] -> one_term f = true).
Proof.
  intros H. unfold builder.addOrSubstract_handleItem.
  destruct (builder.falsy item); [now left|].
  destruct item as [[v|n]|]; [| right; now apply sum_handleNode_first | now left].
  right. exists (builder.value v), []. split; [reflexivity|].
  intros _. apply value_one_term.
Qed.

(** What a call resolves starts with a term under the outer sign, and a
    lone term is a node that is appended as it is. *)
Lemma sum_resolve_first op items :
  forallb operand_has_pairs items = true ->
  builder.addOrSubstract_resolve op items = []
  \/ exists f rest,
       builder.addOrSubstract_resolve op items = (op, f) :: rest
       /\ (rest = [] -> one_term f = true).
Proof.
  induction items as [|x items IH] using rev_ind; intros H; [now left|].
  rewrite forallb_app in H. apply andb_true_iff in H as [H1 H2].
  simpl in H2. rewrite andb_true_r in H2.
  rewrite resolve_app. cbn [fold_left].
  destruct (IH H1) as [E|(f & rest & E & Hf)]; rewrite E.
  - now apply sum_handleItem_first.
  - right. destruct (sum_handleItem_extends op x ((op, f) :: rest)) as (ext & ->).
    exists f, (rest ++ ext). split; [reflexivity|].
    intros E'. apply app_eq_nil in E' as [E' _]. auto.
Qed.

Lemma sum_handleNode_clacSum op f rest :
  (rest = [] -> one_term f = true) ->
  builder.addOrSubstract_handleNode op (create.clacSum f rest) [] = (op, f) :: rest.
Proof.
  intros H. destruct rest as [|p ps].
  - rewrite clacSum_nil. now rewrite handleNode_one_term by auto.
  - rewrite handleNode_clacSum. cbn [app]. f_equal.
    replace (flips op []) with false by now destruct op.
    transitivity (map (fun sv : SumOp * Ast.CalcSum => sv) (p :: ps));
      [apply map_ext; now intros [s v] | apply map_id].
Qed.

(** X1. The result of [add] (of [substract]) given as the first operand of
    another [add] ([substract]) is spliced in: the call returns what it
    returns on the operands of the inner call followed by its other
    operands, so that [substract(substract(a, b), c)] is
    [substract(a, b, c)].  The operands of the inner call keep the invariant
    of chains. *)
Theorem nested_sum_call_is_spliced op items1 items2 r :
  forallb operand_has_pairs items1 = true ->
  builder.addOrSubstract op items1 = Ok r ->
  builder.addOrSubstract op (node r :: items2) = builder.addOrSubstract op (items1 ++ items2).
Proof.
  intros Hinv Hr.
  assert (E : builder.addOrSubstract_handleNode op r []
              = builder.addOrSubstract_resolve op items1).
  { unfold builder.addOrSubstract in Hr.
    destruct (sum_resolve_first op items1 Hinv) as [E|(f & rest & E & Hf)];
      rewrite E in Hr; [discriminate|].
    injection Hr as <-. rewrite E. cbn [snd create.calc builder.addOrSubstract_handleNode].
    now apply sum_handleNode_clacSum. }
  unfold builder.addOrSubstract. rewrite resolve_app.
  unfold builder.addOrSubstract_resolve at 1. cbn [fold_left].
  change (builder.addOrSubstract_handleItem op (node r) [])
    with (builder.addOrSubstract_handleNode op r []).
  now rewrite E.
Qed.

Lemma nested_sum_call_is_spliced_witness :
  builder.substract
    [node (Ast.Calc (Ast.Sum (Ast.Number "10") [(" - ", Ast.Dimension "2" "px")])); num 3]
  = builder.substract [num 10; str "2px"; num 3].
Proof.
  apply (nested_sum_call_is_spliced minus [num 10; str "2px"] [num 3]); reflexivity.
Defined.

(** ** Products *)

Lemma product_handleNode_Product op first rest resolvedItems :
  builder.multiplyOrDivide_handleNode op (Ast.Product first rest) resolvedItems
  = resolvedItems ++ (op, first) :: rest.
Proof.
  cbn [builder.multiplyOrDivide_handleNode].
  rewrite fold_left_push, <- app_assoc. cbn [app]. do 2 f_equal.
  transitivity (map (fun ov : string * Ast.CalcSum => ov) rest);
    [apply map_ext; now intros [o v] | apply map_id].
Qed.

Lemma product_handleNode_one_factor op n resolvedItems :
  one_factor n = true ->
  builder.multiplyOrDivide_handleNode op n resolvedItems = resolvedItems ++ [(op, n)].
Proof. now destruct n. Qed.

Lemma value_one_factor v : one_factor (builder.value v) = true.
Proof.
  destruct v as [z|s]; [reflexivity|]. unfold builder.value.
  destruct (RegExp.match_start _ _); [|reflexivity].
  cbv zeta. now repeat destruct (String.eqb _ _).
Qed.

Lemma product_handleNode_first op n :
  product_has_pairs n = true ->
  exists f rest,
    builder.multiplyOrDivide_handleNode op n [] = (op, f) :: rest
    /\ (rest = [] -> one_factor f = true).
Proof.
  induction n; intros H;
    try (eexists _, []; split; reflexivity).
  - auto.
  - rewrite product_handleNode_Product. simpl app. eexists _, _. split; [reflexivity|].
    intros E. simpl in H. destruct rest; [discriminate H | discriminate E].
Qed.

Lemma product_handleItem_first op item :
  factor_has_pairs item = true ->
  builder.multiplyOrDivide_handleItem op item [] = []
  \/ exists f rest,
       builder.multiplyOrDivide_handleItem op item [] = (op, f) :: rest
       /\ (rest = [] -> one_factor f = true).
Proof.
  intros H. unfold builder.multiplyOrDivide_handleItem.
  destruct (builder.falsy item); [now left|].
  destruct item as [[v|n]|]; [| right; now apply product_handleNode_first | now left].
  right. exists (builder.value v), []. split; [reflexivity|].
  intros _. apply value_one_factor.
Qed.

Lemma product_resolve_app op pre post :
  builder.multiplyOrDivide_resolve op (pre ++ post)
  = fold_left
      (fun resolvedItems item => builder.multiplyOrDivide_handleItem op item resolvedItems)
      post (builder.multiplyOrDivide_resolve op pre).
Proof. unfold builder.multiplyOrDivide_resolve. apply fold_left_app. Qed.

Lemma product_resolve_first op items :
  forallb factor_has_pairs items = true ->
  builder.multiplyOrDivide_resolve op items = []
  \/ exists f rest,
       builder.multiplyOrDivide_resolve op items = (op, f) :: rest
       /\ (rest = [] -> one_factor f = true).
Proof.
  induction items as [|x items IH] using rev_ind; intros H; [now left|].
  rewrite forallb_app in H. apply andb_true_iff in H as [H1 H2].
  simpl in H2. rewrite andb_true_r in H2.
  rewrite product_resolve_app. cbn [fold_left].
  destruct (IH H1) as [E|(f & rest & E & Hf)]; rewrite E.
  - now apply product_handleItem_first.
  - right. rewrite product_handleItem_app. cbn [app].
    exists f, (rest ++ builder.multiplyOrDivide_handleItem op x []).
    split; [reflexivity|].
    intros E'. apply app_eq_nil in E' as [E' _]. auto.
Qed.

Lemma product_handleNode_calcProduct op f rest :
  (rest = [] -> one_factor f = true) ->
  builder.multiplyOrDivide_handleNode op (create.calcProduct f rest) [] = (op, f) :: rest.
Proof.
  intros H. destruct rest as [|p ps].
  - rewrite calcProduct_nil. now rewrite product_handleNode_one_factor by auto.
  - now rewrite calcProduct_cons, product_handleNode_Product.
Qed.

(** X2. The result of [multiply] (of [divide]) given as the first operand
    of another [multiply] ([divide]) is spliced in: the call returns what it
    returns on the operands of the inner call followed by its other
    operands, so that [divide(divide(a, b), c)] is [divide(a, b, c)].  The
    operands of the inner call keep the invariant of chains. *)
Theorem nested_product_call_is_spliced op items1 items2 r :
  forallb factor_has_pairs items1 = true ->
  builder.multiplyOrDivide op items1 = Ok r ->
  builder.multiplyOrDivide op (node r :: items2)
  = builder.multiplyOrDivide op (items1 ++ items2).
Proof.
  intros Hinv Hr.
  assert (E : builder.multiplyOrDivide_handleNode op r []
              = builder.multiplyOrDivide_resolve op items1).
  { unfold builder.multiplyOrDivide in Hr.
    destruct (product_resolve_first op items1 Hinv) as [E|(f & rest & E & Hf)];
      rewrite E in Hr; [discriminate|].
    injection Hr as <-. rewrite E.
    cbn [snd create.calc builder.multiplyOrDivide_handleNode].
    now apply product_handleNode_calcProduct. }
  unfold builder.multiplyOrDivide. rewrite product_resolve_app.
  unfold builder.multiplyOrDivide_resolve at 1. cbn [fold_left].
  change (builder.multiplyOrDivide_handleItem op (node r) [])
    with (builder.multiplyOrDivide_handleNode op r []).
  now rewrite E.
Qed.

Lemma nested_product_call_is_spliced_witness :
  builder.divide
    [node (Ast.Calc (Ast.Product (Ast.Number "100") [("/", Ast.Number "2")])); num 5]
  = builder.divide [num 100; num 2; num 5].
Proof.
  apply (nested_product_call_is_spliced "/" [num 100; num 2] [num 5]); reflexivity.
Defined.

(** *** Operands joined by the operator *)

Lemma append_cancel_l (a x y : string) : (a ++ x = a ++ y)%string -> x = y.
Proof. induction a as [|c a IH]; simpl; intros H; [assumption|]. injection H. auto. Qed.

Lemma chain_css_cons o v pairs :
  chain_css ((o, v) :: pairs) = (o ++ css v ++ chain_css pairs)%string.
Proof. unfold chain_css. cbn [map fst snd]. now rewrite concat_cons, append_assoc. Qed.

Lemma chain_css_app l1 l2 : chain_css (l1 ++ l2) = (chain_css l1 ++ chain_css l2)%string.
Proof. unfold chain_css. now rewrite map_app, concat_app. Qed.

Lemma concat_sep_cons (sep x : string) (f : AnyExpression -> string) (cs : list AnyExpression) :
  (x ++ String.concat "" (map (fun c => (sep ++ f c)%string) cs))%string
  = String.concat sep (x :: map f cs).
Proof.
  revert x. induction cs as [|c cs IH]; intros x.
  - simpl. apply append_nil_r.
  - cbn [map]. rewrite concat_cons.
    change (String.concat sep (x :: f c :: map f cs))
      with (x ++ sep ++ String.concat sep (f c :: map f cs))%string.
    now rewrite <- IH, append_assoc.
Qed.

Lemma product_resolve_flat_map op cs :
  builder.multiplyOrDivide_resolve op (map Some cs)
  = flat_map (fun c => builder.multiplyOrDivide_handleItem op (Some c) []) cs.
Proof.
  induction cs as [|c cs IH] using rev_ind; [reflexivity|].
  rewrite map_app, product_resolve_app, IH, flat_map_app. cbn [map fold_left flat_map].
  now rewrite product_handleItem_app, app_nil_r.
Qed.

Lemma product_contributions_css op cs :
  forallb taken_as_is cs = true ->
  chain_css (flat_map (fun c => builder.multiplyOrDivide_handleItem op (Some c) []) cs)
  = String.concat "" (map (fun c => (op ++ operand_css c)%string) cs).
Proof.
  induction cs as [|c cs IH]; intros H; [reflexivity|].
  simpl in H. apply andb_true_iff in H as [Hc H].
  cbn [flat_map map]. rewrite chain_css_app, concat_cons, IH by assumption.
  f_equal. now apply product_contribution_css.
Qed.

Lemma product_taken_first op c :
  taken_as_is c = true ->
  exists f rest, builder.multiplyOrDivide_handleItem op (Some c) [] = (op, f) :: rest.
Proof.
  intros Hc. unfold builder.multiplyOrDivide_handleItem.
  destruct c as [v|n].
  - cbn [taken_as_is] in Hc. apply negb_true_iff in Hc. rewrite Hc. simpl. eauto.
  - cbn [builder.falsy].
    destruct n; try discriminate Hc;
      try (do 2 eexists; reflexivity).
    rewrite product_handleNode_Product. simpl. eauto.
Qed.

(** X3. [multiply] and [divide] of operands that are taken as they stand
    (scalars that are kept, nodes other than a ["calc-sum"] and a [calc])
    serialize to [calc(...)] around the texts of the operands joined by the
    operator.  The text of a ["calc-product"] operand is spliced in as it
    is: its own operators are kept and it gets no parentheses, under
    [divide] too. *)
Theorem product_operands_are_joined :
  (forall op first rest resolvedItems,
      builder.multiplyOrDivide_handleItem op (node (Ast.Product first rest)) resolvedItems
      = resolvedItems ++ (op, first) :: rest)
  /\ (forall op c cs,
      forallb taken_as_is (c :: cs) = true ->
      css_result (builder.multiplyOrDivide op (map Some (c :: cs)))
      = Ok ("calc(" ++ String.concat op (map operand_css (c :: cs)) ++ ")")%string).
Proof.
  split; [intros; apply product_handleNode_Product|].
  intros op c cs H.
  pose proof (product_contributions_css op (c :: cs) H) as Hcss.
  unfold builder.multiplyOrDivide. rewrite product_resolve_flat_map.
  simpl in H. apply andb_true_iff in H as [Hc _].
  destruct (product_taken_first op c Hc) as (f & r & E).
  cbn [flat_map] in Hcss |- *. rewrite E in Hcss |- *.
  cbn [app css_result result_map bind snd].
  rewrite css_calc, css_calcProduct.
  fold (chain_css (r ++ flat_map
                     (fun c => builder.multiplyOrDivide_handleItem op (Some c) []) cs)).
  cbn [app] in Hcss. rewrite chain_css_cons in Hcss. cbn [map] in Hcss.
  rewrite concat_cons, append_assoc in Hcss. apply append_cancel_l in Hcss.
  rewrite Hcss. now rewrite concat_sep_cons.
Qed.

Lemma product_operands_are_joined_witness :
  css_result
    (builder.divide
       [num 8; node (create.calcProduct (create.calcValue.number (Num 2))
                       [("*", create.calcValue.number (Num 2))])])
  = Ok "calc(8/2*2)".
Proof.
  apply (proj2 product_operands_are_joined "/" (EScalar (Num 8))
           [ENode (create.calcProduct (create.calcValue.number (Num 2))
                     [("*", create.calcValue.number (Num 2))])]).
  reflexivity.
Defined.

(** ** Sums of plain operands *)

Lemma css_value v : css (builder.value v) = toString v.
Proof. destruct v; [apply css_value_number | apply css_value_string]. Qed.

Lemma css_anyExprToCalcSum c : css (builder.anyExprToCalcSum c) = argument_css c.
Proof. destruct c as [v|n]; [apply css_value | now destruct n]. Qed.

Lemma sum_handleItem_taken op c resolvedItems :
  taken_as_term c = true ->
  builder.addOrSubstract_handleItem op (Some c) resolvedItems
  = resolvedItems ++ [(op, builder.anyExprToCalcSum c)]
  /\ css (builder.anyExprToCalcSum c) = operand_css c.
Proof.
  intros Hc. unfold builder.addOrSubstract_handleItem.
  destruct c as [v|n].
  - cbn [taken_as_term] in Hc. apply negb_true_iff in Hc. rewrite Hc.
    split; [reflexivity | apply css_value].
  - cbn [builder.falsy]. destruct n; try discriminate Hc; split; reflexivity.
Qed.

Lemma sum_resolve_taken op cs :
  forallb taken_as_term cs = true ->
  builder.addOrSubstract_resolve op (map Some cs)
  = map (fun c => (op, builder.anyExprToCalcSum c)) cs.
Proof.
  induction cs as [|c cs IH] using rev_ind; intros H; [reflexivity|].
  rewrite forallb_app in H. apply andb_true_iff in H as [H1 H2].
  simpl in H2. rewrite andb_true_r in H2.
  rewrite !map_app, resolve_app, IH by assumption. cbn [map fold_left].
  now destruct (sum_handleItem_taken op c
                  (map (fun c => (op, builder.anyExprToCalcSum c)) cs) H2) as [-> _].
Qed.

(** X4. [add] and [substract] of operands that are each one term (scalars
    that are kept, nodes other than a ["calc-sum"] and a [calc]) serialize
    to [calc(...)] around the texts of the operands joined by the operator
    with one space on each side. *)
Theorem sum_operands_are_joined op c cs :
  forallb taken_as_term (c :: cs) = true ->
  css_result (builder.addOrSubstract op (map Some (c :: cs)))
  = Ok ("calc(" ++ String.concat (" " ++ SumOp_text op ++ " ") (map operand_css (c :: cs))
          ++ ")")%string.
Proof.
  intros H. unfold builder.addOrSubstract. rewrite (sum_resolve_taken op (c :: cs) H).
  cbn [map css_result result_map bind snd]. rewrite css_calc, css_clacSum, map_map.
  cbn [fst snd]. f_equal. f_equal. f_equal.
  simpl in H. apply andb_true_iff in H as [Hc H].
  destruct (sum_handleItem_taken op c [] Hc) as [_ ->].
  rewrite <- concat_sep_cons. f_equal. f_equal.
  clear Hc. induction cs as [|x cs IH]; [reflexivity|].
  simpl in H. apply andb_true_iff in H as [Hx H]. cbn [map]. rewrite IH by assumption.
  f_equal. destruct (sum_handleItem_taken op x [] Hx) as [_ ->].
  now rewrite !append_assoc.
Qed.

Lemma sum_operands_are_joined_witness :
  css_result
    (builder.substract
       [str "100%"; str "20px";
        node (create.calcProduct (create.calcValue.number (Num 2))
                [("*", create.calcValue.dimension (Num 5) "vw")])])
  = Ok "calc(100% - 20px - 2*5vw)".
Proof.
  apply (sum_operands_are_joined minus (EScalar (Str "100%"))
           [EScalar (Str "20px");
            ENode (create.calcProduct (create.calcValue.number (Num 2))
                     [("*", create.calcValue.dimension (Num 5) "vw")])]).
  reflexivity.
Defined.

(** ** Arguments of functions *)

Lemma resolveCalcSums_handleItem_kept_operand item resolvedItems :
  builder.resolveCalcSums_handleItem item resolvedItems
  = resolvedItems ++ map builder.anyExprToCalcSum (kept_operands [item]).
Proof.
  unfold builder.resolveCalcSums_handleItem, kept_operands. cbn [flat_map].
  destruct item as [c|]; [|now rewrite app_nil_r].
  destruct (builder.falsy (Some c)); [now rewrite !app_nil_r|].
  rewrite app_nil_r. cbn [map]. destruct c as [v|n]; [reflexivity | now destruct n].
Qed.

Lemma kept_operands_app l1 l2 :
  kept_operands (l1 ++ l2) = kept_operands l1 ++ kept_operands l2.
Proof. apply flat_map_app. Qed.

Lemma kept_operands_dropped items x :
  builder.falsy x = true -> kept_operands (items ++ [x]) = kept_operands items.
Proof.
  intros Hx. rewrite kept_operands_app. unfold kept_operands at 2. cbn [flat_map].
  destruct x; [rewrite Hx|]; now rewrite !app_nil_r.
Qed.

Lemma kept_operands_kept items c :
  builder.falsy (Some c) = false ->
  kept_operands (items ++ [Some c]) = kept_operands items ++ [c].
Proof.
  intros Hc. rewrite kept_operands_app. unfold kept_operands at 2. cbn [flat_map].
  now rewrite Hc.
Qed.

Lemma resolveCalcSums_kept items :
  builder.resolveCalcSums items = map builder.anyExprToCalcSum (kept_operands items).
Proof.
  unfold builder.resolveCalcSums.
  induction items as [|x items IH] using rev_ind; [reflexivity|].
  rewrite fold_left_app, IH. cbn [fold_left].
  now rewrite resolveCalcSums_handleItem_kept_operand, kept_operands_app, map_app.
Qed.

Lemma commas_joined c cs :
  (css (builder.anyExprToCalcSum c)
   ++ String.concat ""
        (map (fun item => ("," ++ css item)%string) (map builder.anyExprToCalcSum cs)))%string
  = String.concat "," (map argument_css (c :: cs)).
Proof.
  rewrite map_map, css_anyExprToCalcSum. cbn [map]. rewrite <- concat_sep_cons.
  f_equal. f_equal. apply map_ext. intros x. now rewrite css_anyExprToCalcSum.
Qed.

(** X5. [min] and [max] resolve every operand that is kept on its own, as
    [anyExprToCalcSum] does (a scalar is parsed, a [calc] loses one
    wrapper, any other node is passed through), in the order given; the
    call raises when no operand is kept and otherwise serializes to the
    texts of the arguments joined by a bare comma. *)
Theorem min_max_arguments items :
  builder.resolveCalcSums items = map builder.anyExprToCalcSum (kept_operands items)
  /\ css_result (builder.min items)
     = match kept_operands items with
       | [] => Throw "Expected at least one item."
       | c :: cs => Ok ("min(" ++ String.concat "," (map argument_css (c :: cs)) ++ ")")%string
       end
  /\ css_result (builder.max items)
     = match kept_operands items with
       | [] => Throw "Expected at least one item."
       | c :: cs => Ok ("max(" ++ String.concat "," (map argument_css (c :: cs)) ++ ")")%string
       end.
Proof.
  split; [apply resolveCalcSums_kept|].
  unfold builder.min, builder.max. rewrite resolveCalcSums_kept.
  destruct (kept_operands items) as [|c cs]; [split; reflexivity|].
  cbn [map css_result result_map bind]. rewrite css_min, css_max.
  pose proof (commas_joined c cs) as J. cbn [map] in J.
  rewrite <- J, !append_assoc. split; reflexivity.
Qed.

(** X6. [clamp], [exp] and [pow] keep every argument, the number [0] and
    the empty string included, and serialize to the name of the function
    around the texts of the arguments, separated by bare commas; a [calc]
    argument loses its wrapper, and ["none"] in any slot of [clamp] is
    written [none]. *)
Theorem function_arguments :
  (forall min preferred max,
      css (builder.clamp min preferred max)
      = ("clamp(" ++ argument_css min ++ "," ++ argument_css preferred ++ ","
           ++ argument_css max ++ ")")%string)
  /\ (forall item, css (builder.exp item) = ("exp(" ++ argument_css item ++ ")")%string)
  /\ (forall base exponent,
      css (builder.pow base exponent)
      = ("pow(" ++ argument_css base ++ "," ++ argument_css exponent ++ ")")%string)
  /\ (forall x, builder.is_none x = true -> argument_css x = "none").
Proof.
  assert (slot : forall x,
             css (if builder.is_none x then Ast.Keyword "none"
                  else builder.anyExprToCalcSum x) = argument_css x).
  { intros x. destruct (builder.is_none x) eqn:E; [|apply css_anyExprToCalcSum].
    destruct x as [[z|s]|n]; try discriminate E.
    simpl in E. apply String.eqb_eq in E. subst s. reflexivity. }
  repeat split.
  - intros a b c. unfold builder.clamp.
    now rewrite css_clamp, !slot, css_anyExprToCalcSum.
  - intros item. rewrite <- css_anyExprToCalcSum.
    destruct item as [v|n]; rewrite !css_rec; reflexivity.
  - intros a b. rewrite <- !css_anyExprToCalcSum. unfold builder.pow.
    rewrite !css_rec. simpl. now rewrite ?append_assoc.
  - intros [[z|s]|n] E; try discriminate E.
    simpl in E. apply String.eqb_eq in E. now subst s.
Qed.

Lemma function_arguments_witness : argument_css (EScalar (Str "none")) = "none".
Proof.
  apply (proj2 (proj2 (proj2 function_arguments)) (EScalar (Str "none"))). reflexivity.
Defined.

(** X7. [round] raises ["Expected at least one item."] exactly when its
    value is missing; a value [0] or [""] is kept.  Otherwise it
    serializes to [round(], the strategy and a comma when one is given, the
    text of the value, a comma and the text of the interval when the
    interval is kept, and [)]. *)
Theorem round_arguments strategy value interval :
  (builder.round strategy value interval = Throw "Expected at least one item."
   <-> value = None)
  /\ css_result (builder.round strategy value interval)
     = match value with
       | None => Throw "Expected at least one item."
       | Some v =>
           Ok ("round("
                 ++ match strategy with
                    | Some s => Ast.RoundStrategy_text s ++ ","
                    | None => ""
                    end
                 ++ argument_css v
                 ++ match kept_operands [interval] with
                    | i :: _ => "," ++ argument_css i
                    | [] => ""
                    end
                 ++ ")")%string
       end.
Proof.
  split.
  - destruct value; simpl; split; intros H; try discriminate H; reflexivity.
  - destruct value as [v|]; [|reflexivity].
    unfold builder.round, kept_operands. cbn [flat_map css_result result_map bind].
    f_equal. rewrite css_rec. unfold create.round. cbn [Ast.to_any].
    destruct interval as [i|]; [destruct (builder.falsy (Some i))|];
      destruct strategy as [s|]; cbn [app serialize_rec map Ast.function Ast.token];
      rewrite !concat_cons, <- ?css_rec, ?css_anyExprToCalcSum;
      simpl; now rewrite ?append_nil_r, ?append_assoc.
Qed.

(** ** What a merged sum stands for *)

Section denotation.
Variable rho : Ast.CalcSum -> Z.
Local Open Scope Z_scope.

Lemma terms_value_app l1 l2 :
  terms_value rho (l1 ++ l2) = terms_value rho l1 + terms_value rho l2.
Proof.
  unfold terms_value. induction l1 as [|x l1 IH]; simpl; [reflexivity|].
  rewrite IH. lia.
Qed.

Lemma denote_one_term n : one_term n = true -> denote rho n = rho n.
Proof. now destruct n. Qed.

Lemma denote_clacSum f rest :
  denote rho (create.clacSum f rest) = denote rho f + terms_value rho rest.
Proof.
  destruct rest as [|p ps].
  - rewrite clacSum_nil. simpl. lia.
  - rewrite clacSum_cons. cbn [denote]. f_equal.
    unfold terms_value. generalize (p :: ps). intros l.
    induction l as [|[s v] l IH]; [reflexivity|].
    cbn [map fold_right fst snd]. rewrite IH. now destruct s.
Qed.

(** The terms a node contributes: its number under the outer sign when
    something stands before it, and its number as it is, once the sign of
    the first term is set aside, when it comes first. *)
Lemma sum_handleNode_value op n resolvedItems :
  exists f ext,
    builder.addOrSubstract_handleNode op n resolvedItems = resolvedItems ++ (op, f) :: ext
    /\ (resolvedItems <> [] ->
        terms_value rho ((op, f) :: ext) = SumOp_sign op * denote rho n)
    /\ (resolvedItems = [] -> denote rho f + terms_value rho ext = denote rho n).
Proof.
  revert resolvedItems.
  induction n; intros acc;
    try (eexists _, []; split; [reflexivity|]; split; intros _;
         cbn [terms_value fold_right fst snd denote]; lia).
  - match goal with IH : forall _, exists _ _, _ |- _ => apply IH end.
  - rewrite handleNode_Sum. eexists _, _. split; [reflexivity|].
    unfold flips, terms_value. split; intros Hacc.
    + replace (Nat.eqb (List.length acc) 0) with false
        by (destruct acc; [contradiction | reflexivity]).
      cbn [fold_right fst snd denote].
      induction rest as [|[tok v] rest IH];
        [destruct op; cbn [map fold_right SumOp_sign]; lia|].
      cbn [map fold_right fst snd] in IH |- *.
      destruct op, (SumOp_of_token tok);
        cbn [SumOp_sign SumOp_flip SumOp_eqb andb negb] in IH |- *; lia.
    + subst acc. cbn [denote]. f_equal.
      induction rest as [|[tok v] rest IH]; [reflexivity|].
      cbn [map fold_right fst snd]. rewrite IH.
      now destruct op.
Qed.

Lemma sum_handleItem_value op c resolvedItems :
  builder.falsy (Some c) = false ->
  exists f ext,
    builder.addOrSubstract_handleItem op (Some c) resolvedItems
    = resolvedItems ++ (op, f) :: ext
    /\ (resolvedItems <> [] ->
        terms_value rho ((op, f) :: ext) = SumOp_sign op * operand_value rho c)
    /\ (resolvedItems = [] -> denote rho f + terms_value rho ext = operand_value rho c).
Proof.
  intros H. unfold builder.addOrSubstract_handleItem. rewrite H.
  destruct c as [v|n]; [|apply sum_handleNode_value].
  exists (builder.value v), []. split; [reflexivity|].
  pose proof (denote_one_term _ (value_one_term v)) as E.
  split; intros _; simpl; rewrite E; lia.
Qed.

(** The number of the kept operands: the first, plus or minus each of the
    others. *)
Lemma sum_resolve_value op items :
  match builder.addOrSubstract_resolve op items, kept_operands items with
  | [], [] => True
  | (_, f) :: rest, c :: cs =>
      denote rho f + terms_value rho rest
      = operand_value rho c
        + SumOp_sign op * fold_right Z.add 0 (map (operand_value rho) cs)
  | _, _ => False
  end.
Proof.
  induction items as [|x items IH] using rev_ind; [exact I|].
  rewrite resolve_app. cbn [fold_left].
  destruct (builder.falsy x) eqn:Hx.
  - rewrite sum_handleItem_dropped, kept_operands_dropped by assumption. exact IH.
  - destruct x as [c|]; [|discriminate Hx].
    rewrite kept_operands_kept by assumption.
    destruct (sum_handleItem_value op c (builder.addOrSubstract_resolve op items) Hx)
      as (f & ext & -> & Hnext & Hfirst).
    destruct (builder.addOrSubstract_resolve op items) as [|[s0 f0] rest0];
      destruct (kept_operands items) as [|c0 cs0]; try contradiction.
    + cbn [app map fold_right]. rewrite (Hfirst eq_refl). lia.
    + cbn [app]. rewrite terms_value_app, map_app.
      rewrite (Hnext ltac:(discriminate)).
      assert (S : forall l1 l2, fold_right Z.add 0 (l1 ++ l2)
                                = fold_right Z.add 0 l1 + fold_right Z.add 0 l2).
      { induction l1; simpl; intros; [reflexivity|]. rewrite IHl1. lia. }
      rewrite S. cbn [map fold_right]. lia.
Qed.
End denotation.

(** X8. What [add] and [substract] return stands for the sum, respectively
    the difference, of their operands: under every assignment [rho] of
    numbers to the nodes that are not sums, the result denotes the first
    kept operand plus (for [substract]: minus) each of the other kept
    operands, a ["calc-sum"] or [calc] operand counting for the number of
    its whole sum. *)
Theorem sum_merge_preserves_value rho op items :
  result_map (denote rho) (builder.addOrSubstract op items)
  = match kept_operands items with
    | [] => Throw "Expected at least one item."
    | c :: cs =>
        Ok (operand_value rho c
            + SumOp_sign op * fold_right Z.add 0 (map (operand_value rho) cs))%Z
    end.
Proof.
  pose proof (sum_resolve_value rho op items) as H.
  unfold builder.addOrSubstract.
  destruct (builder.addOrSubstract_resolve op items) as [|[s f] rest];
    destruct (kept_operands items) as [|c cs]; try contradiction; [reflexivity|].
  cbn [result_map bind snd create.calc denote]. now rewrite denote_clacSum, H.
Qed.

(** ** What a merged product stands for *)

Section product_denotation.
Variable M : Type.
Variable mul : M -> M -> M.
Variable inv : M -> M.
Variable rho : Ast.CalcSum -> M.
Hypothesis mul_assoc : forall a b c, mul a (mul b c) = mul (mul a b) c.
Hypothesis rho_group : forall sum, rho (Ast.Group sum) = rho sum.

Let D := denote_product mul inv rho.
Let chain := pairs_value mul inv rho.

Lemma pairs_value_app x l1 l2 : chain x (l1 ++ l2) = chain (chain x l1) l2.
Proof. apply fold_left_app. Qed.

Lemma pairs_value_mul a x pairs : mul a (chain x pairs) = chain (mul a x) pairs.
Proof.
  revert x. induction pairs as [|[o v] pairs IH]; intros x; [reflexivity|].
  unfold chain, pairs_value in *. cbn [fold_left]. now rewrite IH, mul_assoc.
Qed.

Lemma denote_product_calcProduct f rest :
  D (create.calcProduct f rest) = chain (D f) rest.
Proof.
  destruct rest as [|p ps]; [reflexivity|]. now rewrite calcProduct_cons.
Qed.

(** The pairs an operand of [multiply] contributes stand for its value. *)
Lemma product_handleNode_value n resolvedItems :
  exists f ext,
    builder.multiplyOrDivide_handleNode "*" n resolvedItems
    = resolvedItems ++ ("*", f) :: ext
    /\ chain (D f) ext = D n.
Proof.
  revert resolvedItems.
  induction n; intros acc;
    try (eexists _, []; split; reflexivity).
  - match goal with IH : forall _, exists _ _, _ |- _ => apply IH end.
  - rewrite product_handleNode_Product. eexists _, _. split; reflexivity.
  - eexists _, []. split; [reflexivity|]. apply rho_group.
Qed.

Lemma product_handleItem_value c resolvedItems :
  builder.falsy (Some c) = false ->
  exists f ext,
    builder.multiplyOrDivide_handleItem "*" (Some c) resolvedItems
    = resolvedItems ++ ("*", f) :: ext
    /\ chain (D f) ext = factor_value mul inv rho c.
Proof.
  intros H. unfold builder.multiplyOrDivide_handleItem. rewrite H.
  destruct c as [v|n]; [|apply product_handleNode_value].
  exists (builder.value v), []. split; [reflexivity|].
  pose proof (value_one_factor v) as E. cbn [factor_value].
  unfold chain, pairs_value, D. cbn [fold_left]. now destruct (builder.value v).
Qed.

Lemma product_resolve_value items :
  match builder.multiplyOrDivide_resolve "*" items, kept_operands items with
  | [], [] => True
  | (_, f) :: rest, c :: cs =>
      chain (D f) rest
      = fold_left mul (map (factor_value mul inv rho) cs) (factor_value mul inv rho c)
  | _, _ => False
  end.
Proof.
  induction items as [|x items IH] using rev_ind; [exact I|].
  rewrite product_resolve_app. cbn [fold_left].
  destruct (builder.falsy x) eqn:Hx.
  - rewrite product_handleItem_dropped, kept_operands_dropped by assumption. exact IH.
  - destruct x as [c|]; [|discriminate Hx].
    rewrite kept_operands_kept by assumption.
    destruct (product_handleItem_value c (builder.multiplyOrDivide_resolve "*" items) Hx)
      as (f & ext & -> & Hv).
    destruct (builder.multiplyOrDivide_resolve "*" items) as [|[o0 f0] rest0];
      destruct (kept_operands items) as [|c0 cs0]; try contradiction.
    + exact Hv.
    + cbn [app]. rewrite pairs_value_app, map_app, fold_left_app, <- IH.
      cbn [map fold_left]. rewrite <- Hv.
      unfold chain at 1. unfold pairs_value. cbn [fold_left fst snd String.eqb Ascii.eqb].
      fold (pairs_value mul inv rho). fold chain. fold D.
      now rewrite pairs_value_mul.
Qed.

(** X9. What [multiply] returns stands for the product of its operands: in
    every structure with an associative multiplication, under every
    assignment of values to the nodes that are not products which gives a
    parenthesized sum the value of the sum, the result denotes the kept
    operands multiplied from left to right, a ["calc-product"] or
    [calc] operand counting for the value of its whole chain. *)
Theorem product_merge_preserves_value items :
  result_map (denote_product mul inv rho) (builder.multiply items)
  = match kept_operands items with
    | [] => Throw "Expected at least one item."
    | c :: cs =>
        Ok (fold_left mul (map (factor_value mul inv rho) cs) (factor_value mul inv rho c))
    end.
Proof.
  pose proof (product_resolve_value items) as H.
  unfold builder.multiply, builder.multiplyOrDivide.
  destruct (builder.multiplyOrDivide_resolve "*" items) as [|[o f] rest];
    destruct (kept_operands items) as [|c cs]; try contradiction; [reflexivity|].
  cbn [result_map bind snd create.calc denote_product].
  fold D. now rewrite denote_product_calcProduct, H.
Qed.
End product_denotation.

Lemma product_merge_preserves_value_witness :
  result_map (denote_product Z.mul (fun x => x) (fun _ => 2%Z))
    (builder.multiply
       [num 3; node (create.calcProduct (create.calcValue.number (Num 2))
                       [("/", create.calcValue.number (Num 4))])])
  = Ok 8%Z.
Proof.
  apply (product_merge_preserves_value Z Z.mul (fun x => x) (fun _ => 2%Z)
           Z.mul_assoc (fun _ => eq_refl)).
Defined.

(** ** The loop of the serializer *)

(** X10. The loop of [serialize] only ever appends to [output], and works
    through its stack from the top: on a stack made of two parts it does
    what it does on the first and then, from the output reached, on the
    second.  Hence the text of a node is that of its children one after
    the other, whatever its [kind]; a [null] adds nothing and an array
    counts for its elements. *)
Theorem serialize_loop_composes :
  (forall output stack,
      serialize_loop output stack = (output ++ serialize_loop "" stack)%string)
  /\ (forall output stack1 stack2,
      serialize_loop output (stack1 ++ stack2)
      = serialize_loop (serialize_loop output stack1) stack2)
  /\ (forall kind value1 value2,
      serialize (Node kind (value1 ++ value2))
      = (serialize (Arr value1) ++ serialize (Arr value2))%string)
  /\ (forall kind1 kind2 value, serialize (Node kind1 value) = serialize (Node kind2 value))
  /\ (forall kind value1 value2,
      serialize (Node kind (value1 ++ Null :: value2))
      = serialize (Node kind (value1 ++ value2)))
  /\ (forall kind value1 items value2,
      serialize (Node kind (value1 ++ Arr items :: value2))
      = serialize (Node kind (value1 ++ items ++ value2))).
Proof.
  split; [|split].
  - intros output stack. rewrite !serialize_loop_rec. reflexivity.
  - intros output s1 s2. rewrite !serialize_loop_rec, map_app, concat_app.
    now rewrite append_assoc.
  - repeat split; intros; rewrite !serialize_serialize_rec; cbn [serialize_rec];
      rewrite ?map_app; cbn [map]; rewrite ?concat_app, ?concat_cons, ?map_app, ?concat_app;
      cbn [serialize_rec]; try reflexivity.
Qed.

(** ** The leaves of the value parser *)

Lemma slice_append (a b : string) : RegExp.slice (String.length a) (a ++ b) = b.
Proof. induction a as [|c a IH]; simpl; [now destruct b | exact IH]. Qed.

(** X11. [value] reads a string against the grammar of its pattern: either
    the string is a prefix in the grammar followed by a unit, and the leaf
    is a [number] (empty unit), a [percentage] (unit ["%"]) or a
    [dimension] holding that prefix and that unit; or no prefix of the
    string is in the grammar, and the leaf is the [raw] node of the
    string. *)
Theorem value_reads_the_grammar s :
  (exists numberPart unit,
      s = (numberPart ++ unit)%string
      /\ lang builder.number_pattern numberPart
      /\ builder.value (Str s)
         = if String.eqb unit "" then Ast.Number numberPart
           else if String.eqb unit "%" then Ast.Percentage numberPart
           else Ast.Dimension numberPart unit)
  \/ (builder.value (Str s) = Ast.Raw s
      /\ forall p rest, s = (p ++ rest)%string -> ~ lang builder.number_pattern p).
Proof.
  unfold builder.value.
  destruct (RegExp.match_start builder.number_pattern s) as [p|] eqn:Hm.
  - left. apply match_start_sound in Hm as (Hp & rest & ->).
    exists p, rest. rewrite slice_append. split; [reflexivity|]. split; [assumption|].
    cbv zeta. now repeat destruct (String.eqb _ _).
  - right. split; [reflexivity|]. intros p rest -> Hp.
    now apply (match_start_complete _ _ rest) in Hp.
Qed.

(** *** Numbers and their strings *)

Lemma digit_is_not_a_sign c : RegExp.digit c = true -> RegExp.one_of "+-" c = false.
Proof.
  destruct c as [[|] [|] [|] [|] [|] [|] [|] [|]];
    vm_compute; intros H; first [reflexivity | discriminate H].
Qed.

Lemma many_digits k e n ds :
  all_digits ds = true ->
  k "" = Some e ->
  String.length ds <= n ->
  RegExp.many (RegExp.exec (RegExp.Chr RegExp.digit)) k n ds = Some e.
Proof.
  revert n. induction ds as [|c ds IH]; intros n Hd Hk Hn.
  - destruct n; [exact Hk|]. simpl. exact Hk.
  - unfold all_digits in Hd. cbn [list_ascii_of_string forallb] in Hd.
    apply andb_true_iff in Hd as [Hc Hd].
    destruct n as [|n]; [simpl in Hn; lia|].
    cbn [RegExp.many RegExp.exec]. rewrite Hc.
    replace (Nat.ltb (String.length ds) (String.length (String c ds))) with true
      by (symmetry; apply Nat.ltb_lt; simpl; lia).
    rewrite IH; [reflexivity | assumption | assumption | simpl in Hn; lia].
Qed.

Lemma exec_Cat r1 r2 s k :
  RegExp.exec (RegExp.Cat r1 r2) s k = RegExp.exec r1 s (fun s' => RegExp.exec r2 s' k).
Proof. reflexivity. Qed.

Lemma exec_Or r1 r2 s k :
  RegExp.exec (RegExp.Or r1 r2) s k
  = match RegExp.exec r1 s k with
    | Some e => Some e
    | None => RegExp.exec r2 s k
    end.
Proof. reflexivity. Qed.

Lemma exec_Maybe r s k :
  RegExp.exec (RegExp.Maybe r) s k
  = match RegExp.exec r s k with
    | Some e => Some e
    | None => k s
    end.
Proof. reflexivity. Qed.

Lemma exec_Chr class c s k :
  RegExp.exec (RegExp.Chr class) (String c s) k = if class c then k s else None.
Proof. reflexivity. Qed.

Lemma exec_Some1_digits c ds k e :
  RegExp.digit c = true -> all_digits ds = true -> k "" = Some e ->
  RegExp.exec (RegExp.Some1 (RegExp.Chr RegExp.digit)) (String c ds) k = Some e.
Proof.
  intros Hc Hd Hk. unfold RegExp.Some1. rewrite exec_Cat, exec_Chr, Hc.
  cbn [RegExp.exec]. now apply many_digits.
Qed.

(** A non-empty string of digits, with or without a [-] before it, is
    matched as a whole. *)
Lemma match_start_digits c ds :
  RegExp.digit c = true -> all_digits ds = true ->
  RegExp.match_start builder.number_pattern (String c ds) = Some (String c ds)
  /\ RegExp.match_start builder.number_pattern (String "-" (String c ds))
     = Some (String "-" (String c ds)).
Proof.
  intros Hc Hd.
  assert (whole : forall s, RegExp.take (String.length s - 0) s = s).
  { intros s. rewrite Nat.sub_0_r. pose proof (take_append s "") as T.
    now rewrite append_nil_r in T. }
  unfold RegExp.match_start, builder.number_pattern.
  split.
  - rewrite exec_Cat, exec_Maybe, exec_Chr, (digit_is_not_a_sign c Hc).
    rewrite exec_Cat, exec_Or.
    erewrite exec_Some1_digits; [|assumption|assumption|reflexivity].
    cbv beta iota. change (String.length "") with 0.
    now rewrite (whole (String c ds)).
  - rewrite exec_Cat, exec_Maybe, exec_Chr.
    change (RegExp.one_of "+-" "-") with true. cbv iota.
    rewrite exec_Cat, exec_Or.
    erewrite exec_Some1_digits; [|assumption|assumption|reflexivity].
    cbv beta iota. change (String.length "") with 0.
    now rewrite (whole (String "-" (String c ds))).
Qed.

Lemma uint_digits d : all_digits (NilEmpty.string_of_uint d) = true.
Proof. unfold all_digits. induction d; simpl; auto. Qed.

Lemma uint_string d :
  d <> Decimal.Nil ->
  exists c ds,
    NilZero.string_of_uint d = String c ds
    /\ RegExp.digit c = true /\ all_digits ds = true.
Proof.
  intros Hd. destruct d; [contradiction|..];
    (eexists _, _; split; [reflexivity|]; split; [reflexivity | apply uint_digits]).
Qed.

Lemma value_of_digits c ds :
  RegExp.digit c = true -> all_digits ds = true ->
  builder.value (Str (String c ds)) = Ast.Number (String c ds)
  /\ builder.value (Str (String "-" (String c ds))) = Ast.Number (String "-" (String c ds)).
Proof.
  intros Hc Hd. destruct (match_start_digits c ds Hc Hd) as [E1 E2].
  assert (nothing_left : forall s, RegExp.slice (String.length s) s = "").
  { intros s. pose proof (slice_append s "") as T. now rewrite append_nil_r in T. }
  unfold builder.value. rewrite E1, E2. cbv zeta. rewrite !nothing_left.
  split; reflexivity.
Qed.

Lemma int_plain_decimal (z : Z) : plain_decimal (number_toString (int z)) = true.
Proof.
  unfold int, number_toString.
  destruct z as [|p|p]; [reflexivity| |]; cbn [Z.to_int NilZero.string_of_int].
  - destruct (uint_string (Pos.to_uint p) (DecimalPos.Unsigned.to_uint_nonnil p))
      as (c & ds & -> & Hc & Hd).
    unfold plain_decimal.
    destruct (Ascii.eqb c "-") eqn:E.
    + apply Ascii.eqb_eq in E. subst c. discriminate Hc.
    + now rewrite Hc, Hd.
  - destruct (uint_string (Pos.to_uint p) (DecimalPos.Unsigned.to_uint_nonnil p))
      as (c & ds & -> & Hc & Hd).
    unfold plain_decimal. change (Ascii.eqb "-" "-") with true. cbv iota.
    now rewrite Hc, Hd.
Qed.

(** X12. A number that prints in plain decimal notation and its string
    are parsed to the same leaf: [value(String(n))] is [value(n)], the
    [number] node of that string.  An integer up to [2^53] prints so.
    A number that prints with an exponent after a fraction does not
    qualify, and there the two leaves differ: [value("1.5e+21")] is a
    [dimension] of number ["1"] and unit [".5e+21"], [value(1.5e21)] is
    the [number] node of ["1.5e+21"]. *)
Theorem value_of_number_string :
  (forall n : number,
      plain_decimal (number_toString n) = true ->
      builder.value (Str (toString (Num n))) = builder.value (Num n))
  /\ (forall n : number, builder.value (Num n) = Ast.Number (toString (Num n)))
  /\ (forall z : Z, (Z.abs z <= 2 ^ 53)%Z -> plain_decimal (toString (Num z)) = true)
  /\ (forall n : number,
      number_toString n = "1.5e+21" ->
      builder.value (Str (toString (Num n))) = Ast.Dimension "1" ".5e+21"
      /\ builder.value (Num n) = Ast.Number "1.5e+21").
Proof.
  split; [|split; [reflexivity|split]].
  - intros [text f] H. cbn [number_toString] in H.
    change (builder.value (Num {| number_toString := text; number_is_falsy := f |}))
      with (Ast.Number text).
    cbn [toString number_toString].
    unfold plain_decimal in H.
    destruct text as [|c ds]; [discriminate H|].
    destruct (Ascii.eqb c "-") eqn:E.
    + apply Ascii.eqb_eq in E. subst c.
      destruct ds as [|c' ds']; [discriminate H|].
      apply andb_true_iff in H as [Hc Hd].
      now apply value_of_digits.
    + apply andb_true_iff in H as [Hc Hd].
      now apply value_of_digits.
  - intros z _. apply int_plain_decimal.
  - intros [text f] H. cbn [number_toString] in H. subst text.
    split; reflexivity.
Qed.

Lemma value_of_number_string_witness :
  (Z.abs (-42) <= 2 ^ 53)%Z
  /\ builder.value (Str (toString (Num (-42)))) = builder.value (Num (-42)).
Proof.
  assert (H : (Z.abs (-42) <= 2 ^ 53)%Z) by (vm_compute; discriminate).
  split; [exact H|].
  apply (proj1 value_of_number_string (int (-42))).
  apply (proj1 (proj2 (proj2 value_of_number_string)) (-42)%Z H).
Defined.

(** ** The invariant of chains *)

Lemma value_chains v : chains_have_pairs (builder.value v) = true.
Proof.
  destruct v as [z|s]; [reflexivity|]. unfold builder.value.
  destruct (RegExp.match_start _ _); [|reflexivity].
  cbv zeta. now repeat destruct (String.eqb _ _).
Qed.

Lemma forallb_snd_map {A B : Type} (p : Ast.CalcSum -> bool) (g : A * Ast.CalcSum -> B * Ast.CalcSum)
    (l : list (A * Ast.CalcSum)) :
  (forall x, snd (g x) = snd x) ->
  forallb (fun sv => p (snd sv)) (map g l) = forallb (fun ov => p (snd ov)) l.
Proof.
  intros Hg. induction l as [|x l IH]; [reflexivity|].
  cbn [map forallb]. now rewrite Hg, IH.
Qed.

Lemma clacSum_chains f rest :
  chains_have_pairs f = true ->
  forallb (fun sv => chains_have_pairs (snd sv)) rest = true ->
  chains_have_pairs (create.clacSum f rest) = true.
Proof.
  intros Hf Hrest. destruct rest as [|p ps]; [exact Hf|].
  rewrite clacSum_cons. cbn [chains_have_pairs]. rewrite Hf.
  rewrite forallb_snd_map by reflexivity. now rewrite Hrest.
Qed.

Lemma calcProduct_chains f rest :
  chains_have_pairs f = true ->
  forallb (fun ov => chains_have_pairs (snd ov)) rest = true ->
  chains_have_pairs (create.calcProduct f rest) = true.
Proof.
  intros Hf Hrest. destruct rest as [|p ps]; [exact Hf|].
  rewrite calcProduct_cons. cbn [chains_have_pairs]. now rewrite Hf, Hrest.
Qed.

Lemma sum_handleNode_chains op n resolvedItems :
  chains_have_pairs n = true ->
  forallb (fun sv => chains_have_pairs (snd sv)) resolvedItems = true ->
  forallb (fun sv => chains_have_pairs (snd sv))
    (builder.addOrSubstract_handleNode op n resolvedItems) = true.
Proof.
  revert resolvedItems.
  induction n; intros acc Hn Hacc;
    try (cbn [builder.addOrSubstract_handleNode]; rewrite forallb_app, Hacc;
         cbn [forallb snd]; now rewrite Hn).
  - match goal with IH : forall _, _ -> _ -> _ |- _ => now apply IH end.
  - rewrite handleNode_Sum, forallb_app, Hacc. cbn [forallb snd andb].
    cbn [chains_have_pairs] in Hn. apply andb_true_iff in Hn as [Hn Hrest].
    apply andb_true_iff in Hn as [_ Hfirst]. rewrite Hfirst.
    now rewrite forallb_snd_map by reflexivity.
Qed.

Lemma product_handleNode_chains op n resolvedItems :
  chains_have_pairs n = true ->
  forallb (fun ov => chains_have_pairs (snd ov)) resolvedItems = true ->
  forallb (fun ov => chains_have_pairs (snd ov))
    (builder.multiplyOrDivide_handleNode op n resolvedItems) = true.
Proof.
  revert resolvedItems.
  induction n; intros acc Hn Hacc;
    try (cbn [builder.multiplyOrDivide_handleNode]; rewrite forallb_app, Hacc;
         cbn [forallb snd]; now rewrite Hn).
  - match goal with IH : forall _, _ -> _ -> _ |- _ => now apply IH end.
  - rewrite product_handleNode_Product, forallb_app, Hacc. cbn [forallb snd andb].
    cbn [chains_have_pairs] in Hn. apply andb_true_iff in Hn as [Hn Hrest].
    apply andb_true_iff in Hn as [_ Hfirst]. now rewrite Hfirst.
  - rewrite product_handleNode_Sum, forallb_app, Hacc.
    unfold create.calcValue.group. cbn [forallb snd andb].
    change (chains_have_pairs (Ast.Group (Ast.Sum n rest)))
      with (chains_have_pairs (Ast.Sum n rest)).
    now rewrite Hn.
Qed.

Lemma sum_resolve_chains op items :
  forallb operand_chains_have_pairs items = true ->
  forallb (fun sv => chains_have_pairs (snd sv)) (builder.addOrSubstract_resolve op items)
  = true.
Proof.
  induction items as [|x items IH] using rev_ind; intros H; [reflexivity|].
  rewrite forallb_app in H. apply andb_true_iff in H as [H1 H2].
  simpl in H2. rewrite andb_true_r in H2.
  rewrite resolve_app. cbn [fold_left]. unfold builder.addOrSubstract_handleItem.
  destruct (builder.falsy x); [now apply IH|].
  destruct x as [[v|n]|]; [| apply sum_handleNode_chains; auto | now apply IH].
  rewrite forallb_app, IH by assumption. cbn [forallb snd]. now rewrite value_chains.
Qed.

Lemma product_resolve_chains op items :
  forallb operand_chains_have_pairs items = true ->
  forallb (fun ov => chains_have_pairs (snd ov)) (builder.multiplyOrDivide_resolve op items)
  = true.
Proof.
  induction items as [|x items IH] using rev_ind; intros H; [reflexivity|].
  rewrite forallb_app in H. apply andb_true_iff in H as [H1 H2].
  simpl in H2. rewrite andb_true_r in H2.
  rewrite product_resolve_app. cbn [fold_left]. unfold builder.multiplyOrDivide_handleItem.
  destruct (builder.falsy x); [now apply IH|].
  destruct x as [[v|n]|]; [| apply product_handleNode_chains; auto | now apply IH].
  rewrite forallb_app, IH by assumption. cbn [forallb snd]. now rewrite value_chains.
Qed.

Lemma anyExprToCalcSum_chains c :
  operand_chains_have_pairs (Some c) = true ->
  chains_have_pairs (builder.anyExprToCalcSum c) = true.
Proof. destruct c as [v|n]; [intros _; apply value_chains | now destruct n]. Qed.

Lemma kept_operands_chains items :
  forallb operand_chains_have_pairs items = true ->
  forallb (fun c => chains_have_pairs (builder.anyExprToCalcSum c)) (kept_operands items)
  = true.
Proof.
  induction items as [|x items IH]; intros H; [reflexivity|].
  cbn [forallb] in H. apply andb_true_iff in H as [Hx H].
  change (x :: items) with ([x] ++ items).
  rewrite kept_operands_app, forallb_app, IH, andb_true_r by assumption.
  unfold kept_operands. cbn [flat_map]. destruct x as [c|]; [|reflexivity].
  destruct (builder.falsy (Some c)); [reflexivity|].
  cbn [app forallb]. now rewrite anyExprToCalcSum_chains.
Qed.

Lemma forallb_of_map {A B : Type} (p : B -> bool) (g : A -> B) (l : list A) :
  forallb p (map g l) = forallb (fun x => p (g x)) l.
Proof. induction l as [|x l IH]; [reflexivity|]. cbn [map forallb]. now rewrite IH. Qed.

(** X13. The builder keeps the invariant of chains: when every ["calc-sum"]
    and every ["calc-product"] inside its operands has at least one
    operator pair, so has every one inside the node that [add],
    [substract], [multiply], [divide], [min], [max], [clamp], [exp],
    [pow] or [round] returns; a leaf built by [value] has no chain at
    all. *)
Theorem builder_keeps_chains :
  (forall v, chains_have_pairs (builder.value v) = true)
  /\ (forall op items r,
        forallb operand_chains_have_pairs items = true ->
        builder.addOrSubstract op items = Ok r -> chains_have_pairs r = true)
  /\ (forall op items r,
        forallb operand_chains_have_pairs items = true ->
        builder.multiplyOrDivide op items = Ok r -> chains_have_pairs r = true)
  /\ (forall items r,
        forallb operand_chains_have_pairs items = true ->
        builder.min items = Ok r \/ builder.max items = Ok r -> chains_have_pairs r = true)
  /\ (forall min preferred max,
        forallb operand_chains_have_pairs [Some min; Some preferred; Some max] = true ->
        chains_have_pairs (builder.clamp min preferred max) = true)
  /\ (forall item,
        operand_chains_have_pairs (Some item) = true ->
        chains_have_pairs (builder.exp item) = true)
  /\ (forall base exponent,
        forallb operand_chains_have_pairs [Some base; Some exponent] = true ->
        chains_have_pairs (builder.pow base exponent) = true)
  /\ (forall strategy value interval r,
        forallb operand_chains_have_pairs [value; interval] = true ->
        builder.round strategy value interval = Ok r -> chains_have_pairs r = true).
Proof.
  split; [exact value_chains|].
  split; [|split; [|split; [|split; [|split; [|split]]]]].
  - intros op items r H. unfold builder.addOrSubstract.
    pose proof (sum_resolve_chains op items H) as T.
    destruct (builder.addOrSubstract_resolve op items) as [|[s f] rest]; [discriminate|].
    intros E. injection E as <-. cbn [forallb snd] in T.
    apply andb_true_iff in T as [Tf Trest]. now apply clacSum_chains.
  - intros op items r H. unfold builder.multiplyOrDivide.
    pose proof (product_resolve_chains op items H) as T.
    destruct (builder.multiplyOrDivide_resolve op items) as [|[s f] rest]; [discriminate|].
    intros E. injection E as <-. cbn [forallb snd] in T.
    apply andb_true_iff in T as [Tf Trest]. now apply calcProduct_chains.
  - intros items r H. unfold builder.min, builder.max. rewrite resolveCalcSums_kept.
    pose proof (kept_operands_chains items H) as T.
    destruct (kept_operands items) as [|c cs]; [now intros [E|E]|].
    cbn [map forallb] in T |- *. apply andb_true_iff in T as [Tc Tcs].
    intros [E|E]; injection E as <-; cbn [create.min create.max chains_have_pairs];
      now rewrite Tc, forallb_of_map.
  - intros a b c H. cbn [forallb] in H.
    apply andb_true_iff in H as [Ha H]. apply andb_true_iff in H as [Hb H].
    apply andb_true_iff in H as [Hc _].
    unfold builder.clamp, create.clamp. cbn [chains_have_pairs].
    rewrite (anyExprToCalcSum_chains b Hb).
    destruct (builder.is_none a), (builder.is_none c);
      cbn [chains_have_pairs]; now rewrite ?anyExprToCalcSum_chains.
  - intros item H. destruct item as [v|n]; [apply value_chains|].
    now apply (anyExprToCalcSum_chains (ENode n)).
  - intros a b H. cbn [forallb] in H.
    apply andb_true_iff in H as [Ha H]. apply andb_true_iff in H as [Hb _].
    unfold builder.pow, create.pow. cbn [chains_have_pairs].
    now rewrite !anyExprToCalcSum_chains.
  - intros strategy value interval r H. cbn [forallb] in H.
    apply andb_true_iff in H as [Hv H]. apply andb_true_iff in H as [Hi _].
    unfold builder.round. destruct value as [v|]; [|discriminate].
    intros E. injection E as <-. unfold create.round. cbn [chains_have_pairs].
    rewrite (anyExprToCalcSum_chains v Hv).
    destruct (builder.falsy interval); [reflexivity|].
    destruct interval as [i|]; [|reflexivity]. now rewrite anyExprToCalcSum_chains.
Qed.

Lemma builder_keeps_chains_witness :
  chains_have_pairs
    (Ast.Calc
       (Ast.Product (Ast.Group (Ast.Sum (Ast.Number "1") [(" + ", Ast.Number "2")]))
          [("*", Ast.Number "3")]))
  = true.
Proof.
  apply (proj1 (proj2 (proj2 builder_keeps_chains)) "*"
           [node (create.clacSum (create.calcValue.number (Num 1))
                    [(plus, create.calcValue.number (Num 2))]);
            num 3]);
    reflexivity.
Defined.

(** ** Calls of one family inside calls of the other *)

Lemma sum_resolve_length op items :
  List.length (kept_operands items) <= List.length (builder.addOrSubstract_resolve op items).
Proof.
  induction items as [|x items IH] using rev_ind; [reflexivity|].
  rewrite resolve_app. cbn [fold_left].
  destruct (builder.falsy x) eqn:Hx.
  - now rewrite sum_handleItem_dropped, kept_operands_dropped by assumption.
  - destruct (sum_handleItem_kept op x (builder.addOrSubstract_resolve op items) Hx)
      as (c & cs & ->).
    destruct x as [y|]; [|discriminate Hx].
    rewrite kept_operands_kept by assumption.
    rewrite !length_app. simpl. lia.
Qed.

(** X14. The result of an [add] or [substract] that keeps at least two
    operands is a [calc] around a ["calc-sum"], and [multiply] and [divide]
    take it as one factor in parentheses:
    [multiply(add(a, b), c)] serializes to [calc((] the sum [)*c)]. *)
Theorem sum_result_is_grouped op items r mop c :
  2 <= List.length (kept_operands items) ->
  builder.addOrSubstract op items = Ok r ->
  taken_as_is c = true ->
  exists sum,
    r = create.calc sum
    /\ css_result (builder.multiplyOrDivide mop [node r; Some c])
       = Ok ("calc((" ++ css sum ++ ")" ++ mop ++ operand_css c ++ ")")%string.
Proof.
  intros Hlen Hr Hc. pose proof (sum_resolve_length op items) as L.
  unfold builder.addOrSubstract in Hr.
  destruct (builder.addOrSubstract_resolve op items) as [|[s f] [|p ps]];
    [discriminate Hr | simpl in L; lia |].
  injection Hr as <-. eexists. split; [reflexivity|].
  rewrite clacSum_cons.
  unfold builder.multiplyOrDivide, builder.multiplyOrDivide_resolve. cbn [fold_left].
  match goal with
  | |- context [builder.multiplyOrDivide_handleItem mop (node (create.calc ?n)) []] =>
      change (builder.multiplyOrDivide_handleItem mop (node (create.calc n)) [])
        with [(mop, create.calcValue.group n)]
  end.
  rewrite product_handleItem_app. cbn [app css_result result_map bind snd].
  rewrite css_calc, css_calcProduct, css_group.
  rewrite (product_contribution_css mop c Hc).
  now rewrite !append_assoc.
Qed.

Lemma sum_result_is_grouped_witness :
  exists sum,
    Ast.Calc (Ast.Sum (Ast.Number "10") [(" + ", Ast.Number "20")]) = create.calc sum
    /\ css_result
         (builder.multiplyOrDivide "*"
            [node (Ast.Calc (Ast.Sum (Ast.Number "10") [(" + ", Ast.Number "20")])); num 2])
       = Ok ("calc((" ++ css sum ++ ")" ++ "*" ++ "2" ++ ")")%string.
Proof.
  apply (sum_result_is_grouped plus [num 10; num 20] _ "*" (EScalar (Num 2))).
  - simpl. lia.
  - reflexivity.
  - reflexivity.
Defined.

Lemma one_factor_one_term n : one_factor n = true -> one_term n = true.
Proof. now destruct n. Qed.

(** X15. The result of a [multiply] or [divide] is a [calc] that [add] and
    [substract] unwrap and take as one term, without parentheses:
    [add(a, multiply(b, c))] serializes to [calc(a + ] the product [)].
    The operands of the inner call keep the invariant of chains. *)
Theorem product_result_is_one_term mop items r op a :
  forallb factor_has_pairs items = true ->
  builder.multiplyOrDivide mop items = Ok r ->
  taken_as_term a = true ->
  exists product,
    r = create.calc product
    /\ css_result (builder.addOrSubstract op [Some a; node r])
       = Ok ("calc(" ++ operand_css a ++ " " ++ SumOp_text op ++ " " ++ css product ++ ")")%string.
Proof.
  intros Hinv Hr Ha. unfold builder.multiplyOrDivide in Hr.
  destruct (product_resolve_first mop items Hinv) as [E|(f & rest & E & Hf)];
    rewrite E in Hr; [discriminate Hr|].
  injection Hr as <-. cbn [snd]. eexists. split; [reflexivity|].
  assert (T : one_term (create.calcProduct f rest) = true).
  { destruct rest as [|p ps]; [apply one_factor_one_term; auto|].
    now rewrite calcProduct_cons. }
  unfold builder.addOrSubstract, builder.addOrSubstract_resolve. cbn [fold_left].
  destruct (sum_handleItem_taken op a [] Ha) as [-> Hcss]. cbn [app].
  change (builder.addOrSubstract_handleItem op (node (create.calc (create.calcProduct f rest)))
            [(op, builder.anyExprToCalcSum a)])
    with (builder.addOrSubstract_handleNode op (create.calcProduct f rest)
            [(op, builder.anyExprToCalcSum a)]).
  rewrite (handleNode_one_term op _ _ T). cbn [app css_result result_map bind snd].
  rewrite css_calc, css_clacSum, Hcss. cbn [map fst snd].
  rewrite concat_cons. cbn [String.concat]. now rewrite ?append_assoc, ?append_nil_r.
Qed.

Lemma product_result_is_one_term_witness :
  exists product,
    Ast.Calc (Ast.Product (Ast.Number "2") [("*", Ast.Dimension "5" "vw")])
    = create.calc product
    /\ css_result
         (builder.addOrSubstract plus
            [str "10px";
             node (Ast.Calc (Ast.Product (Ast.Number "2") [("*", Ast.Dimension "5" "vw")]))])
       = Ok ("calc(" ++ "10px" ++ " " ++ "+" ++ " " ++ css product ++ ")")%string.
Proof.
  apply (product_result_is_one_term "*" [num 2; str "5vw"] _ plus (EScalar (Str "10px")));
    reflexivity.
Defined.

(** ** The constructors of [create.ts] *)

(** X16. The text of a node is put together from the texts of its parts:
    [calc], [exp] and a group wrap the text of their sum, [pow] separates
    its two sums by a bare comma, [round] writes the strategy and the
    interval only when they are given, [var] writes the fallback only when
    it is given, and a number, a dimension and a percentage write the
    number as [toString] prints it, directly followed by the unit or by
    [%]. *)
Theorem constructors_serialize :
  (forall sum, css (create.calc sum) = ("calc(" ++ css sum ++ ")")%string)
  /\ (forall sum, css (create.exp sum) = ("exp(" ++ css sum ++ ")")%string)
  /\ (forall sum, css (create.calcValue.group sum) = ("(" ++ css sum ++ ")")%string)
  /\ (forall base exponent,
      css (create.pow base exponent) = ("pow(" ++ css base ++ "," ++ css exponent ++ ")")%string)
  /\ (forall strategy value interval,
      css (create.round strategy value interval)
      = ("round("
           ++ match strategy with
              | Some s => Ast.RoundStrategy_text s ++ ","
              | None => ""
              end
           ++ css value
           ++ match interval with
              | Some i => "," ++ css i
              | None => ""
              end
           ++ ")")%string)
  /\ (forall name fallback,
      css (create.calcValue.var name fallback)
      = ("var(" ++ name
           ++ match fallback with
              | Some f => "," ++ css f
              | None => ""
              end
           ++ ")")%string)
  /\ (forall v, css (create.calcValue.number v) = toString v)
  /\ (forall v unit, css (create.calcValue.dimension v unit) = (toString v ++ unit)%string)
  /\ (forall v, css (create.calcValue.percentage v) = (toString v ++ "%")%string)
  /\ (forall k, css (create.calcValue.keyword k) = k)
  /\ (forall s, css (create.calcValue.raw s) = s).
Proof.
  repeat split; intros; rewrite ?css_rec; try reflexivity.
  - unfold create.round. cbn [Ast.to_any].
    destruct strategy, interval; cbn [serialize_rec map Ast.function Ast.token];
      rewrite !concat_cons, ?css_rec; simpl; now rewrite ?append_nil_r, ?append_assoc.
  - unfold create.calcValue.var. cbn [Ast.to_any].
    destruct fallback; cbn [serialize_rec map Ast.function Ast.token];
      rewrite !concat_cons, ?css_rec; simpl; now rewrite ?append_nil_r, ?append_assoc.
Qed.
